(** * ARGO data fetch: reconciliation and transfer engine

    A shallow embedding of the download modules of the repository
    ([modules/file_exisitance_checking.py], [modules/index_file_download.py],
    [modules/netcdf_file_dowload.py]) and the properties its specification
    states about them.

    Conventions of the embedding:
    - Python [str] is [string]; Python [int] is [Z]; [bytes] is [list byte].
    - The local filesystem is a finite map from paths to file contents.
      Directories are not represented: [os.makedirs] leaves the map as it is,
      and raises when the directory it is to make has an empty name, or is a
      regular file or lies under one.
    - The remote side is a script per URL: the i-th request sent to a URL is
      answered by the i-th entry of that URL's script, which may inspect the
      request (its method and its [Range] header). A URL whose script is
      exhausted does not answer (the request raises, as a timeout does).
    - Every effectful function threads a [world] and appends what it does
      (requests, sleeps, file removals, writes) to the world's log. *)

From Stdlib Require Import ZArith String Ascii List Bool Lia.
From Stdlib.Strings Require Import Byte.
From stdpp Require Import gmap strings list pretty.

Local Open Scope Z_scope.

(** ** Python string primitives *)

Module PyStr.

(** [s.startswith(p)] *)
Fixpoint startswith (s p : string) {struct p} : bool :=
  match p with
  | EmptyString => true
  | String a p' =>
      match s with
      | EmptyString => false
      | String b s' => Ascii.eqb a b && startswith s' p'
      end
  end.

(** [s.endswith(suf)]: some tail of [s] is [suf]. *)
Fixpoint endswith (s suf : string) : bool :=
  String.eqb s suf ||
  match s with
  | EmptyString => false
  | String _ s' => endswith s' suf
  end.

(** [s[n:]] *)
Fixpoint drop (n : nat) (s : string) : string :=
  match n, s with
  | O, _ => s
  | S _, EmptyString => EmptyString
  | S n', String _ s' => drop n' s'
  end.

(** Scanning loop of [str.replace] for a non-empty pattern: occurrences are
    found left to right and do not overlap; [skip] counts the characters of
    the occurrence just replaced that are still to be passed over. *)
Fixpoint replace_go (old new : string) (skip : nat) (s : string) : string :=
  match s with
  | EmptyString => EmptyString
  | String c s' =>
      match skip with
      | S k => replace_go old new k s'
      | O =>
          if startswith s old
          then new +:+ replace_go old new (String.length old - 1) s'
          else String c (replace_go old new O s')
      end
  end.

(** With an empty pattern Python inserts [new] before every character and
    at the end. *)
Fixpoint replace_empty (new s : string) : string :=
  match s with
  | EmptyString => new
  | String c s' => new +:+ String c (replace_empty new s')
  end.

(** [s.replace(old, new)] *)
Definition replace (s old new : string) : string :=
  match old with
  | EmptyString => replace_empty new s
  | String _ _ => replace_go old new O s
  end.

(** Scanning loop of [s.split(sep)[-1]] for a non-empty separator: the text
    after the last separator found, [None] when there is no separator. *)
Fixpoint after_last (sep : string) (skip : nat) (s : string) : option string :=
  match s with
  | EmptyString => None
  | String _ s' =>
      match skip with
      | S k => after_last sep k s'
      | O =>
          if startswith s sep
          then Some (default (drop (String.length sep) s)
                             (after_last sep (String.length sep - 1) s'))
          else after_last sep O s'
      end
  end.

(** [s.split(sep)[-1]], for a non-empty [sep] (Python raises on an empty
    one; the callers build [sep] as [region + "/"]). *)
Definition split_last (s sep : string) : string :=
  default s (after_last sep O s).

(** One step of [posixpath.join]. *)
Definition join2 (path b : string) : string :=
  if startswith b "/" then b
  else if String.eqb path "" || endswith path "/" then path +:+ b
  else path +:+ "/" +:+ b.

(** [os.path.join(a, *rest)] *)
Definition path_join (a : string) (rest : list string) : string :=
  fold_left join2 rest a.

End PyStr.

Import PyStr.

(** ** The path normalizer ([file_exisitance_checking.clean_file_path]) *)

Definition clean_file_path (file_path : string) : string :=
  let file_path :=
    if startswith file_path "data/data/" then drop (String.length "data/") file_path
    else if startswith file_path "data/" then drop (String.length "data/") file_path
    else file_path in
  if negb (endswith file_path ".nc")
  then replace file_path ".nnc" ".nc"
  else file_path.

(** ** The world: local files, remote scripts, and a log of effects *)

Inductive http_method := GET | HEAD.

Record request := Request {
  rq_method : http_method;
  rq_url : string;
  rq_range : option Z   (* [Range: bytes=n-] *)
}.

(** What a request comes back with. [Answer status content_length chunks intact]
    is a response with that status line, that [content-length] header if any,
    and a body delivered as [chunks]; when [intact] is [false] the stream
    raises after the last of these chunks (timeout or connection reset while
    streaming). [NoAnswer] is a request that raises before any response. *)
Inductive reply :=
| Answer (status : Z) (content_length : option Z) (chunks : list (list byte)) (intact : bool)
| NoAnswer.

Inductive event :=
| Requested (r : request)
| Slept (secs : Z)
| Removed (path : string)
| Opened (path : string) (append : bool).

Record world := World {
  fs : gmap string (list byte);
  net : gmap string (list (request -> reply));
  log : list event
}.

Definition record (e : event) (w : world) : world :=
  World (fs w) (net w) (log w ++ [e]).

(** Send a request: the next entry of the URL's script answers it. *)
Definition send (r : request) (w : world) : reply * world :=
  match net w !! rq_url r with
  | Some (f :: rest) =>
      (f r, World (fs w) (<[rq_url r := rest]> (net w)) (log w ++ [Requested r]))
  | _ => (NoAnswer, record (Requested r) w)
  end.

Definition sleep (secs : Z) (w : world) : world := record (Slept secs) w.

(** [os.path.exists] *)
Definition path_exists (path : string) (w : world) : bool :=
  match fs w !! path with Some _ => true | None => false end.

(** [os.path.getsize]; the callers below only ask for existing files. *)
Definition getsize (path : string) (w : world) : Z :=
  Z.of_nat (length (default [] (fs w !! path))).

(** [os.remove] *)
Definition remove (path : string) (w : world) : world :=
  World (delete path (fs w)) (net w) (log w ++ [Removed path]).

(** [open(path, 'ab' if append else 'wb')] followed by one [write] per chunk. *)
Definition write_file (path : string) (append : bool) (chunks : list (list byte))
    (w : world) : world :=
  let old := if append then default [] (fs w !! path) else [] in
  World (<[path := old ++ concat chunks]> (fs w)) (net w) (log w ++ [Opened path append]).

(** The requests in a log, in the order they were sent. *)
Definition requests (l : list event) : list request :=
  omap (fun e => match e with Requested r => Some r | _ => None end) l.

(** ** File existence checking ([modules/file_exisitance_checking.py]) *)

Definition LOCAL_FOLDER : string := "./argo_float_data".
Definition BASE_URL : string := "https://www.ncei.noaa.gov/data/oceans/argo/gadr/data/".
Definition MAX_CONNECTIONS : Z := 100.
Definition RETRIES : Z := 0.

(** [is_file_valid]: the local file exists and is not empty. *)
Definition is_file_valid (local_path : string) (w : world) : bool :=
  path_exists local_path w && (0 <? getsize local_path w).

(** A row of the index table, as far as [query_index] reads it. The optional
    latitude and longitude bounds only add conjuncts to the WHERE clause; the
    workflow never passes them. *)
Record index_row := IndexRow {
  row_file_path : string;
  row_region : string;
  row_year : Z
}.

(** The rows the SELECT of [query_index] returns. *)
Definition select_rows (table : list index_row) (region : string) (year : Z)
    : list index_row :=
  filter (fun r => row_region r = region /\ row_year r = year) table.

(** The set comprehension of [query_index]: the normalized paths of the rows. *)
Definition normalized_paths (table : list index_row) (region : string) (year : Z)
    : gset string :=
  list_to_set ((fun r => clean_file_path (row_file_path r)) <$> select_rows table region year).

(** [query_index]: the list of that set. *)
Definition query_index (table : list index_row) (region : string) (year : Z) : list string :=
  elements (normalized_paths table region year).

(** The [for _ in range(retries)] loop of [download_nc_file]. *)
Fixpoint nc_attempts (n : nat) (url local_path : string) (w : world) : bool * world :=
  match n with
  | O => (false, w)
  | S n' =>
      let '(rep, w1) := send (Request GET url None) w in
      match rep with
      | NoAnswer => nc_attempts n' url local_path (sleep 1 w1)
      | Answer status _ chunks intact =>
          if status =? 200 then
            let w2 := write_file local_path false chunks w1 in
            if intact then (true, w2)
            else nc_attempts n' url local_path (sleep 1 w2)
          else if status =? 404 then (false, w1)
          else nc_attempts n' url local_path w1
      end
  end.

(** [download_nc_file(session, url, local_path, retries)] from its loop on:
    what the call does once its first statement, [os.makedirs], has returned.
    The call with that statement is [download_nc_file_call] below. *)
Definition download_nc_file (url local_path : string) (retries : Z) (w : world)
    : bool * world :=
  nc_attempts (Z.to_nat retries) url local_path w.

(** [asyncio.gather] over the download tasks, run one after the other; the
    replies a task sees depend on its own URL only. *)
Fixpoint gather (retries : Z) (tasks : list (string * string)) (w : world)
    : list bool * world :=
  match tasks with
  | [] => ([], w)
  | (url, path) :: rest =>
      let '(ok, w1) := download_nc_file url path retries w in
      let '(oks, w2) := gather retries rest w1 in
      (ok :: oks, w2)
  end.

Record RunSummary := Summary {
  total_files : Z;
  already_existing : Z;
  downloaded_count : Z;
  failed_count : Z     (* the line "Failed / not found" *)
}.

Record run := Run {
  local_paths : list string;               (* the value returned *)
  download_tasks : list (string * string); (* (url, local_path) planned *)
  failed_downloads : list string;
  summary : option RunSummary              (* the summary printed, if any *)
}.

Definition local_path_of (region file_path : string) : string :=
  path_join LOCAL_FOLDER [region; split_last file_path (region +:+ "/")].

(** The planning loop of [fetch_data]: the lists [local_paths] and
    [download_tasks] it builds. *)
Fixpoint plan (region : string) (files : list string) (w : world)
    : list string * list (string * string) :=
  match files with
  | [] => ([], [])
  | file_path :: rest =>
      let local_path := local_path_of region file_path in
      let url := BASE_URL +:+ file_path in
      let '(paths, tasks) := plan region rest w in
      (local_path :: paths,
       if negb (is_file_valid local_path w) then (url, local_path) :: tasks else tasks)
  end.

(** The loop over [enumerate(results)]: the number of successes and the URLs
    of the tasks whose download returned a false value. *)
Fixpoint count_results (tasks : list (string * string)) (results : list bool)
    : Z * list string :=
  match tasks, results with
  | t :: tasks', success :: results' =>
      let '(downloaded, failed) := count_results tasks' results' in
      if success then (downloaded + 1, failed) else (downloaded, t.1 :: failed)
  | _, _ => (0, [])
  end.

(** The body of [fetch_data], with the retry budget that [download_nc_file]
    takes from its default argument made explicit, and every call taken from
    its loop on as in [download_nc_file]: the run in which no [os.makedirs]
    raises. The run with that statement is [fetch_data_call_budget] below. *)
Definition fetch_data_budget (retries : Z) (table : list index_row)
    (region : string) (year : Z) (w : world) : run * world :=
  let files := query_index table region year in
  let total := Z.of_nat (length files) in
  if total =? 0 then (Run [] [] [] None, w)
  else
    let '(paths, tasks) := plan region files w in
    let already := total - Z.of_nat (length tasks) in
    let '(results, w') :=
      match tasks with
      | [] => ([], w)
      | _ => gather retries tasks w
      end in
    let '(downloaded, failed) := count_results tasks results in
    (Run paths tasks failed
         (Some (Summary total already downloaded (Z.of_nat (length failed)))), w').

(** [fetch_data]: downloads run with the module default [RETRIES]. *)
Definition fetch_data := fetch_data_budget RETRIES.

(** *** The directory of the destination

    [download_nc_file] starts with
    [os.makedirs(os.path.dirname(local_path), exist_ok=True)], outside any
    [try]. The store holds regular files only, so that call can fail in two
    ways: the name is empty, or the name or a path it lies under is a regular
    file. *)

Fixpoint has_slash (s : string) : bool :=
  match s with
  | EmptyString => false
  | String c s' => Ascii.eqb c "/" || has_slash s'
  end.

(** The path up to and including its last slash. *)
Fixpoint head_of (s : string) : string :=
  match s with
  | EmptyString => EmptyString
  | String c s' =>
      if Ascii.eqb c "/" || has_slash s' then String c (head_of s') else EmptyString
  end.

(** [s.rstrip('/')] *)
Fixpoint rstrip_slash (s : string) : string :=
  match s with
  | EmptyString => EmptyString
  | String c s' =>
      let r := rstrip_slash s' in
      if Ascii.eqb c "/" && String.eqb r EmptyString then EmptyString else String c r
  end.

(** [os.path.dirname]: the head without its trailing slashes, unless it is
    made of slashes only. *)
Definition dirname (p : string) : string :=
  let head := head_of p in
  if String.eqb (rstrip_slash head) EmptyString then head else rstrip_slash head.

(** The prefixes of [s] that end where a slash begins, and [s] itself, each
    after the characters [done]. *)
Fixpoint cuts (done s : string) : list string :=
  match s with
  | EmptyString => [done]
  | String c s' =>
      (if Ascii.eqb c "/" then [done] else []) ++ cuts (done +:+ String c EmptyString) s'
  end.

(** The directories [os.makedirs(name)] has to find or make: [name] and the
    paths it lies under. *)
Definition directories (name : string) : list string :=
  filter (fun d => d <> EmptyString) (rstrip_slash <$> cuts EmptyString name).

(** [os.makedirs(name, exist_ok=True)] raises. *)
Definition makedirs_raises (name : string) (w : world) : bool :=
  String.eqb name EmptyString || existsb (fun d => path_exists d w) (directories name).

(** The whole call [download_nc_file(session, url, local_path, retries)]:
    [os.makedirs], then the loop. [None] is the exception of [os.makedirs],
    which nothing in the function catches. *)
Definition download_nc_file_call (url local_path : string) (retries : Z) (w : world)
    : option (bool * world) :=
  if makedirs_raises (dirname local_path) w then None
  else Some (download_nc_file url local_path retries w).

(** [asyncio.gather] over the calls, one after the other as in [gather]; the
    exception of a call is the exception of the whole, and the store a run
    that raises leaves behind is not described. *)
Fixpoint gather_call (retries : Z) (tasks : list (string * string)) (w : world)
    : option (list bool * world) :=
  match tasks with
  | [] => Some ([], w)
  | (url, path) :: rest =>
      match download_nc_file_call url path retries w with
      | None => None
      | Some (ok, w1) =>
          match gather_call retries rest w1 with
          | None => None
          | Some (oks, w2) => Some (ok :: oks, w2)
          end
      end
  end.

(** The body of [fetch_data] with the [os.makedirs] of its download tasks,
    the retry budget made explicit as in [fetch_data_budget]: [None] when it
    raises, which happens before the summary. *)
Definition fetch_data_call_budget (retries : Z) (table : list index_row)
    (region : string) (year : Z) (w : world) : option (run * world) :=
  let files := query_index table region year in
  let total := Z.of_nat (length files) in
  if total =? 0 then Some (Run [] [] [] None, w)
  else
    let '(paths, tasks) := plan region files w in
    let already := total - Z.of_nat (length tasks) in
    match (match tasks with [] => Some ([], w) | _ => gather_call retries tasks w end) with
    | None => None
    | Some (results, w') =>
        let '(downloaded, failed) := count_results tasks results in
        Some (Run paths tasks failed
                  (Some (Summary total already downloaded (Z.of_nat (length failed)))), w')
    end.

(** [fetch_data] as the workflow calls it: the calls run with the module
    default [RETRIES]. *)
Definition fetch_data_call := fetch_data_call_budget RETRIES.

(** [check_and_download_files]: the list [fetch_data] returns, and [[]] when
    that list is empty or [fetch_data] raises. *)
Definition check_and_download_files (table : list index_row) (region : string)
    (year : Z) (w : world) : list string * world :=
  match fetch_data_call table region year w with
  | Some (r, w') => (local_paths r, w')
  | None => ([], w)
  end.

(** [check_and_download_files] on an index database that may be out of reach:
    [None] is a [psycopg2.connect] or a query that raises, which the same
    handler turns into [[]]. *)
Definition check_and_download_files_db (db : option (list index_row)) (region : string)
    (year : Z) (w : world) : list string * world :=
  match db with
  | Some table => check_and_download_files table region year w
  | None => ([], w)
  end.

(** ** Index download ([modules/index_file_download.py]) *)

Module IndexDownload.

Definition MAX_RETRIES : Z := 3.

(** [is_file_complete]: compares the local size with the size a HEAD request
    reports; a missing [content-length] header reads as 0. *)
Definition is_file_complete (file_path url : string) (w : world) : bool * world :=
  if negb (path_exists file_path w) then (false, w)
  else
    let '(rep, w1) := send (Request HEAD url None) w in
    match rep with
    | Answer status content_length _ _ =>
        if status =? 200 then
          let server_size := default 0 content_length in
          let local_size := getsize file_path w1 in
          if (0 <? server_size) && (local_size =? server_size) then (true, w1)
          else if (server_size =? 0) && (local_size =? 0) then (true, w1)
          else (false, w1)
        else (false, w1)
    | NoAnswer => (false, w1)
    end.

(** [Response.raise_for_status] raises for 4xx and 5xx. *)
Definition raises_for_status (status : Z) : bool :=
  (400 <=? status) && (status <? 600).

(** The body of the [try] of one attempt; [true] when it runs to its
    [return], [false] when it raises. *)
Definition attempt (url save_path : string) (w : world) : bool * world :=
  let existing_size := if path_exists save_path w then getsize save_path w else 0 in
  let resume := 0 <? existing_size in
  let headers := if resume then Some existing_size else None in
  let '(rep, w1) := send (Request GET url headers) w in
  match rep with
  | NoAnswer => (false, w1)
  | Answer status _ chunks intact =>
      if status =? 416 then
        let w2 := if path_exists save_path w1 then remove save_path w1 else w1 in
        let '(rep2, w3) := send (Request GET url None) w2 in
        match rep2 with
        | NoAnswer => (false, w3)
        | Answer status2 _ chunks2 intact2 =>
            if raises_for_status status2 then (false, w3)
            else (intact2, write_file save_path false chunks2 w3)
        end
      else if (status =? 200) || (status =? 206) then
        (intact, write_file save_path resume chunks w1)
      else if raises_for_status status then (false, w1)
      else (path_exists save_path w1, w1)   (* [os.path.getsize] raises on a missing file *)
  end.

(** Which of its three final messages [download_file] prints; the Python
    function itself returns [None] on every path. *)
Inductive exit := Skipped | Downloaded | GaveUp.

(** The [for attempt in range(1, MAX_RETRIES + 1)] loop with its handler. *)
Fixpoint attempts (n : nat) (url save_path : string) (w : world) : exit * world :=
  match n with
  | O => (GaveUp, w)
  | S n' =>
      let '(ok, w1) := attempt url save_path w in
      if ok then (Downloaded, w1)
      else
        let w2 := if path_exists save_path w1 then remove save_path w1 else w1 in
        attempts n' url save_path (sleep 5 w2)
  end.

Definition download_file (url save_path : string) (w : world) : exit * world :=
  let '(complete, w1) := is_file_complete save_path url w in
  if complete then (Skipped, w1)
  else attempts (Z.to_nat MAX_RETRIES) url save_path w1.

End IndexDownload.

(** ** Directory scan and download ([modules/netcdf_file_dowload.py]) *)

Module NetcdfDownload.

Definition base_url : string := "https://www.ncei.noaa.gov/data/oceans/argo/gadr/data/".

(** *** The two regular expressions of [parse_apache_directory_fast]

    Both patterns are deterministic: after the literal [<a href=Q] (Q the
    double quote) the attribute value runs to the first double quote, the
    rest of the tag to the first [>], and the anchor text to the first [<].
    They are matched with [re.IGNORECASE]. *)

Definition dquote : ascii := "034"%char.

Definition lower (c : ascii) : ascii :=
  let n := nat_of_ascii c in
  if ((65 <=? n) && (n <=? 90))%nat then ascii_of_nat (n + 32) else c.

Fixpoint lower_str (s : string) : string :=
  match s with
  | EmptyString => EmptyString
  | String c s' => String (lower c) (lower_str s')
  end.

(** Match the literal [p] at the head of [s], ignoring case; the rest of [s]. *)
Fixpoint lit (p s : string) : option string :=
  match p with
  | EmptyString => Some s
  | String a p' =>
      match s with
      | EmptyString => None
      | String b s' => if Ascii.eqb (lower a) (lower b) then lit p' s' else None
      end
  end.

(** The longest prefix without the character [c], and what follows it. *)
Fixpoint span_not (c : ascii) (s : string) : string * string :=
  match s with
  | EmptyString => (EmptyString, EmptyString)
  | String b s' =>
      if Ascii.eqb b c then (EmptyString, s)
      else let '(p, r) := span_not c s' in (String b p, r)
  end.

(** [x+] followed by the literal [tail] covers the whole of [t]. *)
Definition plus_then (tail t : string) : bool :=
  endswith (lower_str t) tail && (String.length tail <? String.length t)%nat.

Fixpoint drop_last (s : string) : string :=
  match s with
  | EmptyString => EmptyString
  | String c EmptyString => EmptyString
  | String c s' => String c (drop_last s')
  end.

(** The tag up to the anchor text: the href value and the text run. *)
Definition match_anchor (s : string) : option (string * string * string) :=
  rest1 ← lit ("<a href=" +:+ String dquote EmptyString) s;
  let '(href, rest2) := span_not dquote rest1 in
  rest3 ← lit (String dquote EmptyString) rest2;
  let '(_, rest4) := span_not ">"%char rest3 in
  rest5 ← lit ">" rest4;
  let '(text, rest6) := span_not "<"%char rest5 in
  rest7 ← lit "</a>" rest6;
  Some (href, text, rest7).

(** [<a href=Q([^Q]+\.nc)Q[^>]*>([^<]+\.nc)</a>] at the head of [s]. *)
Definition match_file (s : string) : option (string * string * string) :=
  '(href, text, rest) ← match_anchor s;
  if plus_then ".nc" href && plus_then ".nc" text
  then Some (href, text, rest) else None.

(** [<a href=Q([^Q]+/)Q[^>]*>([^<]+)/</a>] at the head of [s]. *)
Definition match_dir (s : string) : option (string * string * string) :=
  '(href, text, rest) ← match_anchor s;
  if plus_then "/" href && plus_then "/" text
  then Some (href, drop_last text, rest) else None.

(** [re.findall]: matches are sought left to right and do not overlap. *)
Fixpoint findall (m : string -> option (string * string * string)) (skip : nat)
    (s : string) : list (string * string) :=
  match s with
  | EmptyString => []
  | String _ s' =>
      match skip with
      | S k => findall m k s'
      | O =>
          match m s with
          | Some (g1, g2, rest) =>
              (g1, g2) :: findall m (String.length s - String.length rest - 1) s'
          | None => findall m O s'
          end
      end
  end.

(** [str.strip] *)
Definition is_space (c : ascii) : bool :=
  let n := nat_of_ascii c in
  ((9 <=? n) && (n <=? 13) || (28 <=? n) && (n <=? 32))%nat.

Fixpoint lstrip (s : string) : string :=
  match s with
  | EmptyString => EmptyString
  | String c s' => if is_space c then lstrip s' else s
  end.

Fixpoint rstrip (s : string) : string :=
  match s with
  | EmptyString => EmptyString
  | String c s' =>
      let r := rstrip s' in
      if is_space c && String.eqb r EmptyString then EmptyString else String c r
  end.

Definition strip (s : string) : string := rstrip (lstrip s).

Record file_info := FileInfo { name : string; href : string }.

(** [parse_apache_directory_fast]; its callers never pass an empty page. *)
Definition parse_apache_directory_fast (html_content : string)
    : list file_info * list (string * string) :=
  let files := (fun '(h, n) => FileInfo (strip n) h) <$> findall match_file O html_content in
  let dir_matches := findall match_dir O html_content in
  (files, dir_matches).

(** [fetch_url]: the text of a 200 response, [None] otherwise. *)
Definition fetch_url (url : string) (w : world) : option string * world :=
  let '(rep, w1) := send (Request GET url None) w in
  match rep with
  | Answer status _ chunks intact =>
      if (status =? 200) && intact
      then (Some (string_of_list_byte (concat chunks)), w1)
      else (None, w1)
  | NoAnswer => (None, w1)
  end.

(** [if html:] is false for [None] and for the empty text. *)
Definition truthy (html : option string) : option string :=
  match html with
  | Some EmptyString => None
  | _ => html
  end.

(** [download_file]: skips a path that exists, otherwise one plain GET. *)
Definition download_file (file_url local_path : string) (w : world) : bool * world :=
  if path_exists local_path w then (true, w)
  else
    let '(rep, w1) := send (Request GET file_url None) w in
    match rep with
    | Answer status _ chunks intact =>
        if status =? 200 then (intact, write_file local_path false chunks w1)
        else (false, w1)
    | NoAnswer => (false, w1)
    end.

Definition candidates (url : string) (dirs : list string) (files : list file_info)
    : list (string * string) :=
  (fun f => (url +:+ href f, path_join "argo_float_data" (dirs ++ [name f]))) <$> files.

(** The inner loop of [scan_folder] over the subdirectories of a folder. *)
Fixpoint scan_subdirs (region : string) (folder_url : string) (year : Z)
    (folder_name : string) (subdirs : list (string * string)) (w : world)
    : list (string * string) * world :=
  match subdirs with
  | [] => ([], w)
  | (subdir_href, subdir_name) :: rest =>
      let subdir_url := folder_url +:+ subdir_href in
      let '(subdir_html, w1) := fetch_url subdir_url w in
      let found :=
        match truthy subdir_html with
        | Some html =>
            candidates subdir_url [region; pretty year; folder_name; subdir_name]
                       (fst (parse_apache_directory_fast html))
        | None => []
        end in
      let '(more, w2) := scan_subdirs region folder_url year folder_name rest w1 in
      (found ++ more, w2)
  end.

Definition scan_folder (region folder_url : string) (year : Z) (folder_name : string)
    (w : world) : list (string * string) * world :=
  let '(folder_html, w1) := fetch_url folder_url w in
  match truthy folder_html with
  | Some html =>
      let '(nc_files, subdirs) := parse_apache_directory_fast html in
      let here := candidates folder_url [region; pretty year; folder_name] nc_files in
      let '(below, w2) := scan_subdirs region folder_url year folder_name subdirs w1 in
      (here ++ below, w2)
  | None => ([], w1)
  end.

(** [asyncio.gather] over the folders of a year, one after the other. *)
Fixpoint scan_folders (region year_url : string) (year : Z)
    (dirs : list (string * string)) (w : world) : list (string * string) * world :=
  match dirs with
  | [] => ([], w)
  | (dir_href, dir_name) :: rest =>
      let '(found, w1) := scan_folder region (year_url +:+ dir_href) year dir_name w in
      let '(more, w2) := scan_folders region year_url year rest w1 in
      (found ++ more, w2)
  end.

(** Step 1 of [scan_and_download]: the list [all_files]. *)
Fixpoint scan (region : string) (years : list Z) (w : world)
    : list (string * string) * world :=
  match years with
  | [] => ([], w)
  | year :: rest =>
      let year_url := base_url +:+ region +:+ "/" +:+ pretty year +:+ "/" in
      let '(year_html, w1) := fetch_url year_url w in
      let '(found, w2) :=
        match truthy year_html with
        | Some html =>
            let '(files, dirs) := parse_apache_directory_fast html in
            let direct := candidates year_url [region; pretty year] files in
            let '(below, w2) := scan_folders region year_url year dirs w1 in
            (direct ++ below, w2)
        | None => ([], w1)
        end in
      let '(more, w3) := scan region rest w2 in
      (found ++ more, w3)
  end.

(** Step 2: one download task per entry of [all_files]. *)
Fixpoint download_all (tasks : list (string * string)) (w : world) : list bool * world :=
  match tasks with
  | [] => ([], w)
  | (file_url, local_path) :: rest =>
      let '(ok, w1) := download_file file_url local_path w in
      let '(oks, w2) := download_all rest w1 in
      (ok :: oks, w2)
  end.

(** [scan_and_download]: the tasks created and their results. *)
Definition scan_and_download (region : string) (years : list Z) (w : world)
    : (list (string * string) * list bool) * world :=
  let '(all_files, w1) := scan region years w in
  match all_files with
  | [] => (([], []), w1)
  | _ =>
      let '(results, w2) := download_all all_files w1 in
      ((all_files, results), w2)
  end.

End NetcdfDownload.


(** *** The normalizer's rules, stated separately

    [prefix_rule] and [suffix_rule] are the two rules the code applies;
    [normalize_as_specified] follows the wording of the specification: the
    leading segment is touched only when it is duplicated, and only a trailing
    corrupted suffix is rewritten. *)

Definition prefix_rule (s : string) : string :=
  if startswith s "data/" then drop 5 s else s.

Definition suffix_rule (s : string) : string :=
  if endswith s ".nc" then s else replace s ".nnc" ".nc".

Definition normalize_as_specified (raw : string) : string :=
  let s := if startswith raw "data/data/" then drop 5 raw else raw in
  if negb (endswith s ".nc") && endswith s ".nnc"
  then substring 0 (String.length s - 4) s +:+ ".nc"
  else s.


(** The number of files a run is expected to account for: the size of the set
    of normalized paths. *)
Definition expected_total (table : list index_row) (region : string) (year : Z) : Z :=
  Z.of_nat (size (normalized_paths table region year)).


(** ** Sample remotes and stores *)

(** A remote that sends [body] in one chunk with status 200. *)
Definition ok_reply (body : list byte) : request -> reply :=
  fun _ => Answer 200 None [body] true.

(** A remote that answers with a bare status. *)
Definition status_reply (status : Z) : request -> reply :=
  fun _ => Answer status None [] true.

(** A 200 response whose stream breaks after [chunks]. *)
Definition broken_reply (chunks : list (list byte)) : request -> reply :=
  fun _ => Answer 200 None chunks false.

(** A request that times out. *)
Definition timeout : request -> reply := fun _ => NoAnswer.

(** A remote file [content] served to the letter: HEAD reports its size, a
    plain GET sends it whole, a range request inside the file sends the rest
    with status 206, and a range request at or past its end is rejected with
    status 416. *)
Definition serve (content : list byte) : request -> reply :=
  fun r =>
    let size := Z.of_nat (length content) in
    match rq_method r with
    | HEAD => Answer 200 (Some size) [] true
    | GET =>
        match rq_range r with
        | None => Answer 200 (Some size) [content] true
        | Some n =>
            if (0 <=? n) && (n <? size)
            then Answer 206 (Some (size - n)) [List.skipn (Z.to_nat n) content] true
            else Answer 416 None [] true
        end
    end.

Definition a_path : string := "./argo_float_data/indian/2020/a.nc".
Definition b_path : string := "./argo_float_data/indian/2020/b.nc".
Definition b_url : string := BASE_URL +:+ "indian/2020/b.nc".

(** Two expected files of one partition. *)
Definition two_files : list index_row :=
  [IndexRow "data/indian/2020/a.nc" "indian" 2020;
   IndexRow "data/indian/2020/b.nc" "indian" 2020].

(** [a.nc] is present locally; [b.nc] is served by the remote. *)
Definition b_served : world :=
  World {[ a_path := [x01] ]} {[ b_url := [serve [x02; x03]] ]} [].

(** [a.nc] is present locally; the remote has no [b.nc] and says so. *)
Definition b_not_found : world :=
  World {[ a_path := [x01] ]} {[ b_url := [status_reply 404; status_reply 404; status_reply 404] ]} [].

(** Nothing is present locally and the remote sends [b.nc] as an empty body. *)
Definition b_empty_remote : world :=
  World ∅ {[ b_url := [ok_reply []] ]} [].


(** Nothing is present locally; the first response to [b.nc] breaks after one
    chunk and the next two requests time out. *)
Definition b_stream_breaks : world :=
  World ∅ {[ b_url := [broken_reply [[x02]]; timeout; timeout] ]} [].

(** The remote answers every request for [b.nc] with status 500. *)
Definition b_server_error : world :=
  World ∅ {[ b_url := [status_reply 500; status_reply 500; status_reply 500] ]} [].

(** Two failures, then the file. *)
Definition b_third_time : world :=
  World ∅ {[ b_url := [timeout; status_reply 503; ok_reply [x02; x03]] ]} [].

(** A partial copy of [b.nc] is present locally; the remote serves the file. *)
Definition b_partial : world :=
  World {[ b_path := [x02] ]} {[ b_url := [serve [x02; x03; x04]; serve [x02; x03; x04]] ]} [].


(** An empty copy of [b.nc] is present locally; the remote serves the file. *)
Definition b_empty_local : world :=
  World {[ b_path := [] ]} {[ b_url := [serve [x02]] ]} [].

(** A copy of [b.nc] is present locally and the remote does not answer. *)
Definition b_remote_silent : world :=
  World {[ b_path := [x02] ]} ∅ [].

(** The index lists one file twice: once with the duplicated prefix and once
    with the single one. *)
Definition a_listed_twice : list index_row :=
  [IndexRow "data/indian/2020/a.nc" "indian" 2020;
   IndexRow "data/data/indian/2020/a.nc" "indian" 2020].

(** An anchor of a directory listing. *)
Definition anchor (href text : string) : string :=
  "<a href=" +:+ String NetcdfDownload.dquote EmptyString +:+ href
  +:+ String NetcdfDownload.dquote EmptyString +:+ ">" +:+ text +:+ "</a>".

Definition year_url : string := NetcdfDownload.base_url +:+ "indian/2020/".

(** The listing of the year directory names [a.nc] twice. *)
Definition listing_names_a_twice : world :=
  World ∅
        {[ year_url := [ok_reply (list_byte_of_string (anchor "a.nc" "a.nc" +:+ anchor "a.nc" "a.nc"))] ]}
        [].


(** A remote that serves [content] but ignores the [Range] header: every GET
    is answered with status 200 and the whole file. *)
Definition serve_ignoring_range (content : list byte) : request -> reply :=
  fun r =>
    let size := Z.of_nat (length content) in
    match rq_method r with
    | HEAD => Answer 200 (Some size) [] true
    | GET => Answer 200 (Some size) [content] true
    end.

(** The requests of [w'] are those of [w] followed by at most [k] more, all
    of them to [url]. *)
Definition sends_upto (k : nat) (url : string) (w w' : world) : Prop :=
  exists sent,
    requests (log w') = requests (log w) ++ sent /\
    (length sent <= k)%nat /\
    Forall (fun r => rq_url r = url) sent.


(** ** Conversion ([modules/data_loading_module.py]) *)

Module DataLoading.

Definition OUTPUT_FOLDER : string := "processed_data".
Definition BASE_FOLDER : string := "argo_float_data".
Definition BATCH_SIZE : nat := 100.

(** [str.lower] and [str.upper], on ASCII letters; other bytes are kept. *)
Definition lower_char (c : ascii) : ascii :=
  let n := nat_of_ascii c in
  if ((65 <=? n) && (n <=? 90))%nat then ascii_of_nat (n + 32) else c.

Definition upper_char (c : ascii) : ascii :=
  let n := nat_of_ascii c in
  if ((97 <=? n) && (n <=? 122))%nat then ascii_of_nat (n - 32) else c.

Fixpoint str_lower (s : string) : string :=
  match s with
  | EmptyString => EmptyString
  | String c s' => String (lower_char c) (str_lower s')
  end.

Fixpoint str_upper (s : string) : string :=
  match s with
  | EmptyString => EmptyString
  | String c s' => String (upper_char c) (str_upper s')
  end.

(** [get_variable]: the variables of a dataset are a map from names to
    values; the lowercase name is tried first, then the uppercase one, then
    the name as given. [None] as result is the [KeyError]; [None] as
    [default_value] is Python's [None]. *)
Definition get_variable {V : Type} (ds : gmap string V) (var_name : string)
    (default_value : option V) : option V :=
  match ds !! str_lower var_name with
  | Some v => Some v
  | None =>
      match ds !! str_upper var_name with
      | Some v => Some v
      | None =>
          match ds !! var_name with
          | Some v => Some v
          | None => default_value
          end
      end
  end.

(** [range(0, n, step)] for a positive [step]. *)
Definition range_step (n step : nat) : list nat :=
  (fun k => k * step)%nat <$> seq 0 ((n + step - 1) / step).

(** The slices [files[i:i+BATCH_SIZE]] of the batch loop of [convert_data]. *)
Definition batches (files : list string) : list (list string) :=
  (fun i => take BATCH_SIZE (List.skipn i files)) <$> range_step (length files) BATCH_SIZE.

Section Convert.

(** A data frame, and [process_file]: the frame read from a file, or [None]
    for a file that is skipped. *)
Context {DF : Type}.
Variable process_file : string -> string -> option DF.

(** The name of the parquet file of a batch. *)
Definition batch_file (region : string) (year : Z) (batch_number : nat) : string :=
  path_join OUTPUT_FOLDER
    [region; region +:+ "_" +:+ pretty year +:+ "_batch" +:+ pretty batch_number +:+ ".parquet"].

(** The batch loop: the parquet files written, each with the frames put in
    it, and the number of successful batches. [process_file] catches its own
    exceptions, so [dask.compute] is taken not to raise. *)
Fixpoint convert_batches (region : string) (year : Z) (batch_number : nat)
    (todo : list (list string)) : list (string * list DF) * nat :=
  match todo with
  | [] => ([], O)
  | batch_files :: rest =>
      let batch_dfs := omap (fun f => process_file f region) batch_files in
      let '(written, successful_batches) :=
        convert_batches region year (S batch_number) rest in
      match batch_dfs with
      | [] => (written, successful_batches)
      | _ => ((batch_file region year batch_number, batch_dfs) :: written,
              S successful_batches)
      end
  end.

(** [convert_data], given the files the glob found: its result and the
    parquet files it writes. *)
Definition convert_data (region : string) (year : Z) (files : list string)
    : bool * list (string * list DF) :=
  match files with
  | [] => (false, [])
  | _ =>
      let '(written, successful_batches) :=
        convert_batches region year O (batches files) in
      ((0 <? successful_batches)%nat, written)
  end.

End Convert.

End DataLoading.


(** A reply after which [download_nc_file] tries again: no response, a 200
    response whose stream breaks, or a status other than 200 and 404. *)
Definition transient_reply (r : reply) : Prop :=
  match r with
  | NoAnswer => True
  | Answer status _ _ intact =>
      (status = 200 /\ intact = false) \/ (status <> 200 /\ status <> 404)
  end.


(** A reply to a plain GET after which an attempt of the index downloader on
    an absent destination fails and leaves the destination absent: no
    response, a 200 or 206 response whose stream breaks, or any status other
    than 200, 206 and 416. *)
Definition index_transient_reply (r : reply) : Prop :=
  match r with
  | NoAnswer => True
  | Answer status _ _ intact =>
      ((status = 200 \/ status = 206) /\ intact = false) \/
      (status <> 200 /\ status <> 206 /\ status <> 416)
  end.




(** A regular file sits where the directory of the year should be. *)
Definition year_is_a_file : world :=
  World {[ "./argo_float_data/indian/2020" := [x01] ]} ∅ [].

(** * Properties *)

(** ** Strings *)

Lemma append_cons (c : ascii) (a b : string) :
  String c a +:+ b = String c (a +:+ b).
Proof. reflexivity. Qed.

Lemma append_empty (b : string) : EmptyString +:+ b = b.
Proof. reflexivity. Qed.

(** Decide the character comparisons left in a hypothesis about a string
    whose first characters are known. *)
Ltac compare_chars E :=
  rewrite ?append_cons, ?append_empty in E;
  cbn -[Ascii.eqb] in E;
  repeat match type of E with
         | context [Ascii.eqb ?x ?y] =>
             destruct (Ascii.eqb_spec x y); [try congruence; subst|try congruence];
             cbn -[Ascii.eqb] in E
         end;
  try congruence.

Section Strings.

Lemma length_append (a b : string) :
  String.length (a +:+ b) = (String.length a + String.length b)%nat.
Proof. induction a as [|c a IH]; simpl; [reflexivity | now rewrite IH]. Qed.

Lemma startswith_append (p r : string) : startswith (p +:+ r) p = true.
Proof.
  induction p as [|c p IH]; simpl; [reflexivity|].
  now rewrite Ascii.eqb_refl, IH.
Qed.

Lemma startswith_shorter (p q s : string) :
  startswith s (p +:+ q) = true -> startswith s p = true.
Proof.
  revert s. induction p as [|c p IH]; intros s H; simpl in *; [reflexivity|].
  destruct s as [|d s]; [discriminate|].
  apply andb_true_iff in H as [Hc H]. rewrite Hc. simpl. now apply IH.
Qed.

Lemma endswith_refl (s : string) : endswith s s = true.
Proof. destruct s; simpl; rewrite ?Ascii.eqb_refl, ?String.eqb_refl; reflexivity. Qed.

Lemma endswith_append (p s suf : string) :
  endswith s suf = true -> endswith (p +:+ s) suf = true.
Proof.
  intros H. induction p as [|c p IH]; simpl; [exact H|].
  rewrite IH. apply orb_true_r.
Qed.

Lemma endswith_length (s suf : string) :
  endswith s suf = true -> (String.length suf <= String.length s)%nat.
Proof.
  induction s as [|c s IH]; cbn [endswith]; intros H.
  - destruct suf; [simpl; lia | discriminate].
  - apply orb_true_iff in H as [H|H].
    + apply String.eqb_eq in H. subst suf. simpl. lia.
    + specialize (IH H). simpl. lia.
Qed.

(** A path that ends with the corrupted suffix does not end with the
    expected one. *)
Lemma corrupted_not_expected (p : string) : endswith (p +:+ ".nnc") ".nc" = false.
Proof.
  induction p as [|c p IH]; [reflexivity|].
  rewrite append_cons. cbn [endswith]. rewrite IH, orb_false_r.
  apply String.eqb_neq. intros H.
  apply (f_equal String.length) in H. simpl in H.
  rewrite length_append in H. simpl in H. lia.
Qed.

(** The scan of [replace] reaches a trailing [.nnc] with nothing left to
    skip, and rewrites it. *)
Lemma replace_go_trailing (p : string) (k : nat) :
  (k <= String.length p)%nat ->
  exists q, replace_go ".nnc" ".nc" k (p +:+ ".nnc") = q +:+ ".nc".
Proof.
  revert k. induction p as [|c p IH]; intros k Hk.
  - simpl in Hk. assert (k = O) by lia. subst k. exists EmptyString. reflexivity.
  - destruct k as [|k].
    + rewrite append_cons. cbn [replace_go].
      destruct (startswith (String c (p +:+ ".nnc")) ".nnc") eqn:E.
      * assert (Hlen : (3 <= String.length p)%nat).
        { destruct p as [|c1 [|c2 [|c3 p]]]; [exfalso; compare_chars E ..|simpl; lia]. }
        destruct (IH 3%nat Hlen) as [q Hq].
        exists (".nc" +:+ q). simpl in Hq |- *. now rewrite Hq.
      * destruct (IH O ltac:(lia)) as [q Hq].
        exists (String c q). simpl. now rewrite Hq.
    + rewrite append_cons. cbn [replace_go]. apply IH. simpl in Hk. lia.
Qed.

End Strings.

(** ** The path normalizer *)

Section Normalizer.

Lemma clean_file_path_split (s : string) :
  clean_file_path s = suffix_rule (prefix_rule s).
Proof.
  unfold clean_file_path, suffix_rule, prefix_rule.
  destruct (startswith s "data/data/") eqn:E.
  - rewrite (startswith_shorter "data/" "data/" s E).
    change (String.length "data/") with 5%nat.
    now destruct (endswith (drop 5 s) ".nc").
  - change (String.length "data/") with 5%nat.
    destruct (startswith s "data/").
    + now destruct (endswith (drop 5 s) ".nc").
    + now destruct (endswith s ".nc").
Qed.

Lemma prefix_rule_strips (r : string) : prefix_rule ("data/" +:+ r) = r.
Proof. reflexivity. Qed.

(** The prefix rule leaves a trailing [.nnc] in place. *)
Lemma prefix_rule_trailing (p : string) :
  exists p', prefix_rule (p +:+ ".nnc") = p' +:+ ".nnc".
Proof.
  unfold prefix_rule.
  destruct (startswith (p +:+ ".nnc") "data/") eqn:E; [|now exists p].
  destruct p as [|c1 [|c2 [|c3 [|c4 [|c5 p]]]]];
    try (exfalso; compare_chars E; fail).
  now exists p.
Qed.

Lemma suffix_rule_trailing (p : string) :
  exists q, suffix_rule (p +:+ ".nnc") = q +:+ ".nc".
Proof.
  unfold suffix_rule. rewrite corrupted_not_expected.
  apply (replace_go_trailing p O). lia.
Qed.

End Normalizer.

Example clean_dup :
  clean_file_path "data/data/indian/2020/a.nc" = "data/indian/2020/a.nc".
Proof. reflexivity. Qed.

Example clean_single : clean_file_path "data/indian/2020/a.nc" = "indian/2020/a.nc".
Proof. reflexivity. Qed.

Example clean_typo : clean_file_path "data/indian/2020/a.nnc" = "indian/2020/a.nc".
Proof. reflexivity. Qed.

Example clean_inner : clean_file_path "a.nnc/b.txt" = "a.nc/b.txt".
Proof. reflexivity. Qed.

Example clean_keeps_inner_when_suffix_fine : clean_file_path "a.nnc/b.nc" = "a.nnc/b.nc".
Proof. reflexivity. Qed.

Example split_last_takes_final_part :
  split_last "indian/2020/indian/a.nc" "indian/" = "a.nc".
Proof. reflexivity. Qed.

Example path_join_relative :
  path_join "./argo_float_data" ["indian"; "2020/a.nc"] = "./argo_float_data/indian/2020/a.nc".
Proof. reflexivity. Qed.

Example path_join_absolute :
  path_join "./argo_float_data" ["indian"; "/etc/a.nc"] = "/etc/a.nc".
Proof. reflexivity. Qed.

(** C3, as amended. [clean_file_path] is a total function that applies two
    rules in order. First, a leading [data/] is removed once: a duplicated
    leading [data/data/] collapses to a single [data/], and a single leading
    [data/] is removed as well. Second, when the result does not end with
    [.nc], every occurrence of [.nnc] in it is replaced by [.nc] (so a path
    that ends with [.nnc] comes out ending with [.nc]); a result that ends
    with [.nc] is left as it is. *)
Theorem clean_file_path_rules :
  (forall s, clean_file_path s = suffix_rule (prefix_rule s)) /\
  (forall r, clean_file_path ("data/data/" +:+ r) = suffix_rule ("data/" +:+ r)) /\
  (forall r, clean_file_path ("data/" +:+ r) = suffix_rule r) /\
  (forall p, exists q, clean_file_path (p +:+ ".nnc") = q +:+ ".nc").
Proof.
  repeat split; intros.
  - apply clean_file_path_split.
  - now rewrite clean_file_path_split.
  - now rewrite clean_file_path_split.
  - rewrite clean_file_path_split.
    destruct (prefix_rule_trailing p) as [p' ->].
    apply suffix_rule_trailing.
Qed.

(** C3, as stated, fails: a single leading [data/] is not kept, and a [.nnc]
    that is not at the end of the path is rewritten too. *)
Lemma clean_file_path_not_as_specified :
  clean_file_path "data/indian/2020/a.nc" <> normalize_as_specified "data/indian/2020/a.nc" /\
  clean_file_path "a.nnc/b.txt" <> normalize_as_specified "a.nnc/b.txt".
Proof. split; vm_compute; discriminate. Qed.

(** ** Downloads of the file existence check *)

Section Downloads.

Lemma download_nc_file_default (url local_path : string) (w : world) :
  download_nc_file url local_path RETRIES w = (false, w).
Proof. reflexivity. Qed.

Lemma gather_default (tasks : list (string * string)) (w : world) :
  gather RETRIES tasks w = ((fun _ => false) <$> tasks, w).
Proof.
  induction tasks as [|[url path] tasks IH]; [reflexivity|].
  cbn [gather]. rewrite download_nc_file_default, IH. reflexivity.
Qed.

Lemma gather_length (retries : Z) (tasks : list (string * string)) (w : world) :
  length (gather retries tasks w).1 = length tasks.
Proof.
  revert w. induction tasks as [|[url path] tasks IH]; intros w; [reflexivity|].
  cbn [gather]. destruct (download_nc_file url path retries w) as [ok w1].
  specialize (IH w1). destruct (gather retries tasks w1) as [oks w2].
  simpl in *. now rewrite IH.
Qed.

(** Every result is tallied once: as a download or as a failure. *)
Lemma tally (tasks : list (string * string)) (results : list bool) :
  length results = length tasks ->
  0 <= (count_results tasks results).1 /\
  (count_results tasks results).1 + Z.of_nat (length (count_results tasks results).2)
  = Z.of_nat (length tasks).
Proof.
  revert results. induction tasks as [|t tasks IH]; intros [|ok results] H;
    simpl in H; try discriminate; [simpl; lia|].
  injection H as H. specialize (IH results H).
  cbn [count_results]. destruct (count_results tasks results) as [n failed].
  destruct ok; simpl in *; lia.
Qed.

Lemma count_results_all_failed (tasks : list (string * string)) :
  count_results tasks ((fun _ => false) <$> tasks) = (0, tasks.*1).
Proof.
  induction tasks as [|t tasks IH]; [reflexivity|].
  cbn. cbn in IH. now rewrite IH.
Qed.

Lemma plan_paths (region : string) (files : list string) (w : world) :
  (plan region files w).1 = local_path_of region <$> files.
Proof.
  induction files as [|f files IH]; [reflexivity|].
  cbn [plan]. destruct (plan region files w) as [paths tasks].
  simpl in *. now rewrite IH.
Qed.

Lemma plan_length (region : string) (files : list string) (w : world) :
  (length (plan region files w).2 <= length files)%nat.
Proof.
  induction files as [|f files IH]; [reflexivity|].
  cbn [plan]. destruct (plan region files w) as [paths tasks].
  destruct (negb _); simpl in *; lia.
Qed.

End Downloads.

(** ** The run of [fetch_data] *)

Section Run.

Variables (retries : Z) (table : list index_row) (region : string) (year : Z).

Lemma query_index_length :
  Z.of_nat (length (query_index table region year)) = expected_total table region year.
Proof. reflexivity. Qed.

(** A run over an empty partition stops before planning. *)
Lemma fetch_data_budget_empty (w : world) :
  query_index table region year = [] ->
  fetch_data_budget retries table region year w = (Run [] [] [] None, w).
Proof. intros H. unfold fetch_data_budget. now rewrite H. Qed.

(** Otherwise it plans, downloads and counts. *)
Lemma fetch_data_budget_run (w : world) :
  query_index table region year <> [] ->
  fetch_data_budget retries table region year w =
  let files := query_index table region year in
  let p := plan region files w in
  let g := gather retries p.2 w in
  let c := count_results p.2 g.1 in
  let total := Z.of_nat (length files) in
  (Run p.1 p.2 c.2
       (Some (Summary total (total - Z.of_nat (length p.2)) c.1 (Z.of_nat (length c.2)))),
   g.2).
Proof.
  intros H. unfold fetch_data_budget.
  destruct (query_index table region year) as [|f files] eqn:E; [congruence|].
  replace (Z.of_nat (length (f :: files)) =? 0) with false
    by (symmetry; apply Z.eqb_neq; simpl; lia).
  cbv zeta. destruct (plan region (f :: files) w) as [paths tasks].
  cbn [fst snd].
  replace (match tasks with [] => ([], w) | _ :: _ => gather retries tasks w end)
    with (gather retries tasks w) by now destruct tasks.
  destruct (gather retries tasks w) as [results w'].
  cbn [fst snd]. now destruct (count_results tasks results).
Qed.

End Run.

(** C1. Whatever the catalog rows, the local store and the remote answers, the
    counters of the summary a run prints add up: already existing, downloaded
    and failed sum to the total, which is the number of distinct normalized
    paths. A run prints no summary only when that number is zero. *)
Theorem summary_counters_consistent
    (retries : Z) (table : list index_row) (region : string) (year : Z) (w : world) :
  match summary (fetch_data_budget retries table region year w).1 with
  | Some s =>
      total_files s = expected_total table region year /\
      already_existing s + downloaded_count s + failed_count s = total_files s /\
      0 <= already_existing s /\ 0 <= downloaded_count s /\ 0 <= failed_count s
  | None => expected_total table region year = 0
  end.
Proof.
  destruct (query_index table region year) as [|f files] eqn:E.
  - rewrite fetch_data_budget_empty by exact E. simpl.
    now rewrite <- query_index_length, E.
  - rewrite fetch_data_budget_run by (rewrite E; discriminate).
    cbn [fst snd summary total_files already_existing downloaded_count failed_count].
    rewrite query_index_length.
    pose proof (plan_length region (query_index table region year) w) as Hp.
    pose proof (query_index_length table region year) as Hq.
    pose proof (tally (plan region (query_index table region year) w).2
                  (gather retries (plan region (query_index table region year) w).2 w).1
                  (gather_length _ _ _)) as [H0 Ht].
    repeat split; lia.
Qed.

(** At the default budget a run leaves the world as it found it. *)
Lemma fetch_data_world (table : list index_row) (region : string) (year : Z) (w : world) :
  (fetch_data table region year w).2 = w.
Proof.
  unfold fetch_data.
  destruct (query_index table region year) as [|f files] eqn:E.
  - now rewrite fetch_data_budget_empty by exact E.
  - rewrite fetch_data_budget_run by (rewrite E; discriminate).
    cbv zeta. now rewrite gather_default.
Qed.

(** With the module default [RETRIES = 0] the loop of [download_nc_file] has
    no iteration, so a run changes nothing, downloads nothing, and counts
    every planned task as failed. *)
Lemma default_budget_loop :
  (forall url local_path w, download_nc_file url local_path RETRIES w = (false, w)) /\
  (forall table region year w,
     let r := (fetch_data table region year w).1 in
     (fetch_data table region year w).2 = w /\
     failed_downloads r = (download_tasks r).*1 /\
     match summary r with
     | Some s =>
         downloaded_count s = 0 /\
         failed_count s = Z.of_nat (length (download_tasks r))
     | None => download_tasks r = []
     end).
Proof.
  split; [apply download_nc_file_default|].
  intros table region year w. unfold fetch_data. cbv zeta.
  destruct (query_index table region year) as [|f files] eqn:E.
  - rewrite fetch_data_budget_empty by exact E. now simpl.
  - rewrite fetch_data_budget_run by (rewrite E; discriminate).
    cbv zeta. rewrite gather_default. cbn [fst snd].
    rewrite count_results_all_failed.
    cbn [fst snd failed_downloads download_tasks summary downloaded_count failed_count].
    repeat split. now rewrite length_fmap.
Qed.

(** *** The default budget and [os.makedirs] *)

Lemma existsb_false_Forall {A : Type} (f : A -> bool) (l : list A) :
  existsb f l = false -> Forall (fun x => f x = false) l.
Proof.
  induction l as [|a l IH]; cbn [existsb]; [constructor|].
  intros [Ha Hl]%orb_false_iff. constructor; [exact Ha | now apply IH].
Qed.

Lemma existsb_true_elem {A : Type} (f : A -> bool) (l : list A) :
  existsb f l = true <-> exists x, x ∈ l /\ f x = true.
Proof.
  rewrite existsb_exists. split; intros (x & Hx & H); exists x;
    (split; [now apply list_elem_of_In | exact H]).
Qed.

(** At the default budget the calls raise or do nothing. *)
Lemma gather_call_default (tasks : list (string * string)) (w : world) :
  gather_call RETRIES tasks w
  = if existsb (fun t => makedirs_raises (dirname t.2) w) tasks then None
    else Some ((fun _ => false) <$> tasks, w).
Proof.
  induction tasks as [|[url path] tasks IH]; [reflexivity|].
  cbn [gather_call existsb snd]. unfold download_nc_file_call.
  destruct (makedirs_raises (dirname path) w); [reflexivity|].
  rewrite download_nc_file_default, IH. cbn [orb].
  now destruct (existsb (fun t => makedirs_raises (dirname t.2) w) tasks).
Qed.

Lemma download_tasks_plan (retries : Z) (table : list index_row) (region : string)
    (year : Z) (w : world) :
  download_tasks (fetch_data_budget retries table region year w).1
  = (plan region (query_index table region year) w).2.
Proof.
  destruct (query_index table region year) as [|f files] eqn:E.
  - now rewrite fetch_data_budget_empty by exact E.
  - rewrite fetch_data_budget_run by (rewrite E; discriminate). cbv zeta. now rewrite E.
Qed.

(** [fetch_data] raises exactly when [os.makedirs] raises for a planned
    destination, and is the run at the default budget otherwise. *)
Lemma fetch_data_call_eq (table : list index_row) (region : string) (year : Z) (w : world) :
  fetch_data_call table region year w
  = if existsb (fun t => makedirs_raises (dirname t.2) w)
               (plan region (query_index table region year) w).2
    then None
    else Some (fetch_data table region year w).
Proof.
  unfold fetch_data_call, fetch_data_call_budget, fetch_data.
  destruct (query_index table region year) as [|f files] eqn:E.
  - rewrite fetch_data_budget_empty by exact E. reflexivity.
  - rewrite fetch_data_budget_run by (rewrite E; discriminate). rewrite E. cbv zeta.
    replace (Z.of_nat (length (f :: files)) =? 0) with false
      by (symmetry; apply Z.eqb_neq; simpl; lia).
    destruct (plan region (f :: files) w) as [paths tasks]. cbn [fst snd].
    replace (match tasks with [] => Some ([], w) | _ :: _ => gather_call RETRIES tasks w end)
      with (gather_call RETRIES tasks w) by now destruct tasks.
    rewrite gather_call_default, gather_default.
    destruct (existsb (fun t => makedirs_raises (dirname t.2) w) tasks); [reflexivity|].
    cbn [fst snd]. now destruct (count_results tasks ((fun _ => false) <$> tasks)).
Qed.

(** C10, as amended. With the module default [RETRIES = 0] a call of
    [download_nc_file] sends no request and writes no byte, whatever its
    input: it returns [False] and leaves the world as it was when
    [os.makedirs] can make the directory of the destination, and raises when
    it cannot. [fetch_data] raises, before any summary, when [os.makedirs]
    raises for a planned destination; otherwise it changes nothing, downloads
    nothing, and counts every planned task as failed. *)
Theorem default_budget_call_downloads_nothing :
  (forall url local_path w,
     download_nc_file_call url local_path RETRIES w
     = if makedirs_raises (dirname local_path) w then None else Some (false, w)) /\
  (forall table region year w,
     match fetch_data_call table region year w with
     | Some (r, w') =>
         w' = w /\
         Forall (fun t => makedirs_raises (dirname t.2) w = false) (download_tasks r) /\
         failed_downloads r = (download_tasks r).*1 /\
         match summary r with
         | Some s =>
             downloaded_count s = 0 /\
             failed_count s = Z.of_nat (length (download_tasks r))
         | None => download_tasks r = []
         end
     | None =>
         exists t, t ∈ (plan region (query_index table region year) w).2 /\
                   makedirs_raises (dirname t.2) w = true
     end).
Proof.
  split.
  - intros url local_path w. unfold download_nc_file_call.
    now rewrite download_nc_file_default.
  - intros table region year w. rewrite fetch_data_call_eq.
    destruct (existsb (fun t => makedirs_raises (dirname t.2) w)
                (plan region (query_index table region year) w).2) eqn:Ex.
    + now apply existsb_true_elem.
    + pose proof (proj2 default_budget_loop table region year w) as H. cbv zeta in H.
      destruct H as (Hw & Hf & Hs).
      apply existsb_false_Forall in Ex.
      destruct (fetch_data table region year w) as [r w'] eqn:Er. cbn [fst snd] in *.
      repeat split; try assumption.
      replace (download_tasks r)
        with (download_tasks (fetch_data_budget RETRIES table region year w).1)
        by (unfold fetch_data in Er; now rewrite Er).
      now rewrite download_tasks_plan.
Qed.

(** C10, as stated, fails: the call does not return [False] for every input.
    For a destination with no directory part, and for one whose directory is
    a regular file, [os.makedirs] raises; and [fetch_data] then raises
    without a tally. *)
Lemma default_budget_call_can_raise :
  download_nc_file_call b_url "b.nc" RETRIES (World ∅ ∅ []) = None /\
  download_nc_file_call b_url b_path RETRIES year_is_a_file = None /\
  fetch_data_call two_files "indian" 2020 year_is_a_file = None.
Proof. vm_compute. repeat split. Qed.

(** ** What a download touches *)

Section Frame.

Lemma send_fs (r : request) (w : world) : fs (send r w).2 = fs w.
Proof. unfold send. now destruct (net w !! rq_url r) as [[|f rest]|]. Qed.

Lemma is_file_valid_lookup (p : string) (w w' : world) :
  fs w' !! p = fs w !! p -> is_file_valid p w' = is_file_valid p w.
Proof. intros H. unfold is_file_valid, path_exists, getsize. now rewrite H. Qed.

Lemma write_file_other (lp p : string) (append : bool) (chunks : list (list byte))
    (w : world) :
  p <> lp -> fs (write_file lp append chunks w) !! p = fs w !! p.
Proof. intros H. unfold write_file. simpl. now rewrite lookup_insert_ne. Qed.

(** The attempts of one download leave every other path alone. *)
Lemma nc_attempts_other (n : nat) (url lp p : string) (w : world) :
  p <> lp -> fs (nc_attempts n url lp w).2 !! p = fs w !! p.
Proof.
  intros Hp. revert w. induction n as [|n IH]; intros w; [reflexivity|].
  cbn [nc_attempts].
  pose proof (send_fs (Request GET url None) w) as Hs.
  destruct (send (Request GET url None) w) as [[status cl chunks intact|] w1];
    cbn [snd] in Hs.
  - destruct (status =? 200).
    + destruct intact; [|rewrite IH]; cbn [snd sleep record fs];
        rewrite write_file_other by exact Hp; now rewrite Hs.
    + destruct (status =? 404); [|rewrite IH]; cbn [snd]; now rewrite Hs.
  - rewrite IH. cbn [sleep record fs]. now rewrite Hs.
Qed.

Lemma gather_other (retries : Z) (tasks : list (string * string)) (p : string)
    (w : world) :
  p ∉ tasks.*2 -> fs (gather retries tasks w).2 !! p = fs w !! p.
Proof.
  revert w. induction tasks as [|[url lp] tasks IH]; intros w Hp; [reflexivity|].
  cbn [gather]. cbn in Hp. apply not_elem_of_cons in Hp as [Hne Hp].
  pose proof (nc_attempts_other (Z.to_nat retries) url lp p w Hne) as H1.
  unfold download_nc_file.
  destruct (nc_attempts (Z.to_nat retries) url lp w) as [ok w1].
  specialize (IH w1 Hp). destruct (gather retries tasks w1) as [oks w2].
  cbn [snd] in *. congruence.
Qed.

(** Only paths that are not valid are planned for download. *)
Lemma plan_tasks_invalid (region : string) (files : list string) (w : world)
    (p : string) :
  p ∈ (plan region files w).2.*2 -> is_file_valid p w = false.
Proof.
  induction files as [|f files IH]; cbn [plan]; [now intros ?%elem_of_nil|].
  destruct (plan region files w) as [paths tasks]. cbn [snd] in *.
  destruct (is_file_valid (local_path_of region f) w) eqn:E; cbn [negb]; [exact IH|].
  cbn. intros [->|H]%elem_of_cons; [exact E | now apply IH].
Qed.


(** The planned tasks are the files whose local copy is not valid. *)
Lemma plan_tasks_elem (region : string) (files : list string) (w : world)
    (u lp : string) :
  (u, lp) ∈ (plan region files w).2 <->
  exists f, f ∈ files /\ u = BASE_URL +:+ f /\ lp = local_path_of region f /\
            is_file_valid lp w = false.
Proof.
  induction files as [|f files IH]; cbn [plan].
  - split; [intros H%elem_of_nil; contradiction|].
    intros (f & H%elem_of_nil & _). contradiction.
  - destruct (plan region files w) as [paths tasks]. cbn [snd] in *.
    destruct (is_file_valid (local_path_of region f) w) eqn:E; cbn [negb].
    + rewrite IH. split.
      * intros (g & Hg & H). exists g. split; [now right | exact H].
      * intros (g & [->|Hg]%elem_of_cons & Hu & Hl & Hv).
        -- subst lp. congruence.
        -- now exists g.
    + rewrite elem_of_cons, IH. split.
      * intros [[= -> ->]|(g & Hg & H)].
        -- exists f. repeat split; [left | exact E].
        -- exists g. split; [now right | exact H].
      * intros (g & [->|Hg]%elem_of_cons & -> & -> & Hv).
        -- now left.
        -- right. now exists g.
Qed.

End Frame.


(** *** The store a first run leaves *)

Section AfterTheFirstRun.









End AfterTheFirstRun.








(** C9, as amended. The list a run returns holds the local path of every
    expected file, whatever became of its download. A path that was present
    and non-empty before the run is still so after it; and at the default
    budget, which fetches nothing, a returned path is present and non-empty
    after the run exactly when it was before. *)
Theorem returned_paths_cover_every_expected_file
    (retries : Z) (table : list index_row) (region : string) (year : Z) (w : world) :
  let run := fetch_data_budget retries table region year w in
  local_paths run.1 = local_path_of region <$> query_index table region year /\
  (forall p, is_file_valid p w = true -> is_file_valid p run.2 = true) /\
  (forall p, is_file_valid p (fetch_data table region year w).2 = is_file_valid p w).
Proof.
  cbv zeta. split; [|split].
  - destruct (query_index table region year) as [|f files] eqn:E.
    + now rewrite fetch_data_budget_empty by exact E.
    + rewrite fetch_data_budget_run by (rewrite E; discriminate).
      cbv zeta. cbn [fst local_paths]. now rewrite plan_paths, E.
  - intros p Hp.
    destruct (query_index table region year) as [|f files] eqn:E.
    + now rewrite fetch_data_budget_empty by exact E.
    + rewrite fetch_data_budget_run by (rewrite E; discriminate).
      cbv zeta. cbn [snd]. rewrite <- Hp. apply is_file_valid_lookup.
      apply gather_other. intros Hin.
      apply plan_tasks_invalid in Hin. congruence.
  - intros p. now rewrite fetch_data_world.
Qed.

Lemma returned_paths_cover_every_expected_file_witness :
  is_file_valid a_path b_served = true /\
  is_file_valid a_path (fetch_data_budget 1 two_files "indian" 2020 b_served).2 = true.
Proof.
  assert (H : is_file_valid a_path b_served = true) by (vm_compute; reflexivity).
  split; [exact H|].
  exact (proj1 (proj2 (returned_paths_cover_every_expected_file
                         1 two_files "indian" 2020 b_served)) a_path H).
Defined.

(** C9, as stated, fails. At the default budget a run over an empty store
    returns the path of a file it did not fetch; and at a budget of one
    attempt a download that succeeds with an empty body is counted as
    downloaded while the file it leaves is empty. *)
Lemma returned_path_missing_or_empty :
  (let '(paths, w') := check_and_download_files two_files "indian" 2020 (World ∅ ∅ []) in
   paths = [a_path; b_path] /\ path_exists b_path w' = false) /\
  (let '(r, w') := fetch_data_budget 1 [IndexRow "data/indian/2020/b.nc" "indian" 2020]
                                     "indian" 2020 b_empty_remote in
   summary r = Some (Summary 1 0 1 0) /\ local_paths r = [b_path] /\
   path_exists b_path w' = true /\ getsize b_path w' = 0).
Proof.
  split.
  - vm_compute. split; reflexivity.
  - vm_compute. repeat split.
Qed.

(** ** Not found *)

(** C7, as amended. A 404 ends the download at once: [download_nc_file]
    returns [False] after that single request, without another attempt, a
    sleep or a write. The run goes on and prints its summary, in which the
    file is counted in the one tally for failed and not-found downloads: in
    the two-file scenario the summary reads total 2, already existing 1,
    downloaded 0, failed or not found 1, after exactly one request. *)
Theorem not_found_is_terminal :
  (forall retries url local_path w w1 cl chunks intact,
     0 < retries ->
     send (Request GET url None) w = (Answer 404 cl chunks intact, w1) ->
     download_nc_file url local_path retries w = (false, w1) /\
     fs w1 = fs w /\
     log w1 = log w ++ [Requested (Request GET url None)]) /\
  (let '(r, w') := fetch_data_budget 3 two_files "indian" 2020 b_not_found in
   summary r = Some (Summary 2 1 0 1) /\
   local_paths r = [a_path; b_path] /\
   failed_downloads r = [b_url] /\
   log w' = [Requested (Request GET b_url None)]).
Proof.
  split.
  - intros retries url local_path w w1 cl chunks intact Hr Hs.
    split; [|split].
    + unfold download_nc_file.
      destruct (Z.to_nat retries) as [|n] eqn:En; [lia|].
      cbn [nc_attempts]. now rewrite Hs.
    + now rewrite <- (send_fs (Request GET url None) w), Hs.
    + unfold send in Hs. cbn [rq_url] in Hs.
      destruct (net w !! url) as [[|f rest]|]; now inversion Hs.
  - vm_compute. repeat split.
Qed.

Lemma not_found_is_terminal_witness :
  0 < 3 /\
  download_nc_file b_url b_path 3 b_not_found =
  (false, (send (Request GET b_url None) b_not_found).2).
Proof.
  split; [lia|].
  refine (proj1 (proj1 not_found_is_terminal 3 b_url b_path b_not_found _ None [] true _ _));
    [lia | vm_compute; reflexivity].
Defined.

(** C7, as stated, fails in its accounting: the summary has no separate
    not-found counter, and in the two-file scenario the file that is not found
    makes the failed tally 1, not 0, at the default budget and at a budget of
    three attempts alike. *)
Lemma not_found_counted_as_failed :
  (exists s, summary (fetch_data two_files "indian" 2020 b_not_found).1 = Some s /\
             failed_count s = 1 /\ failed_count s <> 0) /\
  (exists s, summary (fetch_data_budget 3 two_files "indian" 2020 b_not_found).1 = Some s /\
             failed_count s = 1 /\ failed_count s <> 0).
Proof.
  split; exists (Summary 2 1 0 1); (split; [vm_compute; reflexivity|]); simpl; lia.
Qed.

(** ** Retries *)

Lemma send_scripted (r : request) (w : world) (f : request -> reply)
    (rest : list (request -> reply)) :
  net w !! rq_url r = Some (f :: rest) ->
  send r w = (f r, World (fs w) (<[rq_url r := rest]> (net w)) (log w ++ [Requested r])).
Proof. intros H. unfold send. now rewrite H. Qed.

(** A transfer that fails twice and succeeds at the third attempt is a
    download, for [download_nc_file] called with three attempts and for the
    index downloader alike. *)
Example third_attempt_succeeds :
  (download_nc_file b_url b_path 3 b_third_time).1 = true /\
  (IndexDownload.download_file b_url b_path b_third_time).1 = IndexDownload.Downloaded /\
  fs (IndexDownload.download_file b_url b_path b_third_time).2 !! b_path = Some [x02; x03].
Proof. vm_compute. repeat split. Qed.

(** The index downloader removes what a failed attempt left and sleeps before
    the next one: when it gives up, the destination does not exist. *)
Lemma index_gave_up_no_file (n : nat) (url save_path : string) (w : world) :
  (0 < n)%nat ->
  (IndexDownload.attempts n url save_path w).1 = IndexDownload.GaveUp ->
  path_exists save_path (IndexDownload.attempts n url save_path w).2 = false.
Proof.
  revert w. induction n as [|n IH]; intros w Hn; [lia|].
  cbn [IndexDownload.attempts].
  destruct (IndexDownload.attempt url save_path w) as [[|] w1]; [discriminate|].
  destruct n as [|n].
  - intros _. cbn [IndexDownload.attempts snd].
    destruct (path_exists save_path w1) eqn:E; [|exact E].
    unfold path_exists, sleep, record, remove. cbn [fs].
    now rewrite lookup_delete_eq.
  - apply IH. lia.
Qed.

(** C2, at the input where the code departs from it. [download_nc_file] with
    three attempts, a first response that breaks after one chunk and two
    timeouts: it returns [False] and the chunk it wrote is still in the
    destination, which [is_file_valid] then accepts; nothing is ever removed.
    And when the remote answers 500 three times, the three requests follow
    each other with no sleep in between. *)
Theorem download_nc_file_keeps_partial_bytes :
  (let '(ok, w') := download_nc_file b_url b_path 3 b_stream_breaks in
   ok = false /\
   fs w' !! b_path = Some [x02] /\
   is_file_valid b_path w' = true /\
   log w' = [Requested (Request GET b_url None); Opened b_path false; Slept 1;
             Requested (Request GET b_url None); Slept 1;
             Requested (Request GET b_url None); Slept 1]) /\
  (let '(ok, w') := download_nc_file b_url b_path 3 b_server_error in
   ok = false /\
   log w' = [Requested (Request GET b_url None); Requested (Request GET b_url None);
             Requested (Request GET b_url None)]).
Proof. vm_compute. repeat split. Qed.

(** On the input where [download_nc_file] keeps the partial bytes, the index
    downloader removes them and sleeps after each failed attempt. *)
Example index_removes_partial_bytes :
  let '(e, w') := IndexDownload.download_file b_url b_path b_stream_breaks in
  e = IndexDownload.GaveUp /\
  fs w' !! b_path = None /\
  log w' = [Requested (Request GET b_url None); Opened b_path false; Removed b_path; Slept 5;
            Requested (Request GET b_url None); Slept 5;
            Requested (Request GET b_url None); Slept 5].
Proof. vm_compute. repeat split. Qed.

(** ** Resume *)

Section Resume.

Import IndexDownload.

Variables (url save_path : string) (partial content : list byte).
Variable rest : list (request -> reply).
Variable w : world.

Let N := Z.of_nat (length partial).
Let M := Z.of_nat (length content).

Hypothesis Hlocal : fs w !! save_path = Some partial.
Hypothesis Hpartial : 0 < N.
Hypothesis Hdiffer : N <> M.
Hypothesis Hremote :
  net w !! url = Some (serve content :: serve content :: serve content :: rest).

(** The HEAD request finds the sizes different. *)
Lemma resume_not_complete :
  is_file_complete save_path url w =
  (false, World (fs w) (<[url := serve content :: serve content :: rest]> (net w))
                (log w ++ [Requested (Request HEAD url None)])).
Proof.
  unfold is_file_complete, path_exists. rewrite Hlocal. cbn [negb].
  rewrite (send_scripted (Request HEAD url None) w _ _ Hremote).
  cbn [serve rq_method rq_url default from_option id]. unfold getsize. cbn [fs].
  rewrite Hlocal. cbn [default from_option id Z.eqb]. fold N M.
  replace (N =? M) with false by (symmetry; apply Z.eqb_neq; exact Hdiffer).
  replace (N =? 0) with false by (symmetry; apply Z.eqb_neq; lia).
  now rewrite !andb_false_r.
Qed.

(** The remote file is longer: the rest is requested and appended. *)
Lemma resume_appends :
  N < M ->
  download_file url save_path w =
  (Downloaded,
   World (<[save_path := partial ++ List.skipn (length partial) content]> (fs w))
         (<[url := serve content :: rest]> (net w))
         (log w ++ [Requested (Request HEAD url None);
                    Requested (Request GET url (Some N));
                    Opened save_path true])).
Proof.
  intros Hlt. unfold download_file. rewrite resume_not_complete.
  change (Z.to_nat MAX_RETRIES) with 3%nat. cbn [attempts].
  unfold attempt, path_exists, getsize. cbn [fs]. rewrite Hlocal. cbn [default from_option id].
  fold N. replace (0 <? N) with true by (symmetry; apply Z.ltb_lt; exact Hpartial).
  erewrite send_scripted by (cbn [net rq_url]; apply lookup_insert_eq).
  cbn [serve rq_method rq_range rq_url]. fold M.
  replace ((0 <=? N) && (N <? M)) with true
    by (symmetry; apply andb_true_iff; split; [apply Z.leb_le|apply Z.ltb_lt]; lia).
  cbn [Z.eqb orb]. unfold write_file. cbn [fs net log].
  rewrite Hlocal. cbn [default from_option id concat]. rewrite app_nil_r, insert_insert_eq.
  unfold N. rewrite Nat2Z.id, <- !app_assoc. reflexivity.
Qed.

(** The local file is longer than the remote one: the range request is
    rejected, the file removed, and one plain request fetches it whole. *)
Lemma resume_rejected :
  M < N ->
  download_file url save_path w =
  (Downloaded,
   World (<[save_path := content]> (fs w))
         (<[url := rest]> (net w))
         (log w ++ [Requested (Request HEAD url None);
                    Requested (Request GET url (Some N));
                    Removed save_path;
                    Requested (Request GET url None);
                    Opened save_path false])).
Proof.
  intros Hlt. unfold download_file. rewrite resume_not_complete.
  change (Z.to_nat MAX_RETRIES) with 3%nat. cbn [attempts].
  unfold attempt, path_exists, getsize. cbn [fs]. rewrite Hlocal. cbn [default from_option id].
  fold N. replace (0 <? N) with true by (symmetry; apply Z.ltb_lt; exact Hpartial).
  erewrite send_scripted by (cbn [net rq_url]; apply lookup_insert_eq).
  cbn [serve rq_method rq_range rq_url]. fold M.
  replace ((0 <=? N) && (N <? M)) with false
    by (symmetry; apply andb_false_iff; right; apply Z.ltb_ge; lia).
  cbn [Z.eqb fs]. rewrite Hlocal. unfold remove. cbn [fs net log].
  erewrite send_scripted by (cbn [net rq_url]; apply lookup_insert_eq).
  cbn [serve rq_method rq_range rq_url raises_for_status Z.leb Z.compare andb].
  unfold write_file. cbn [fs net log concat].
  rewrite app_nil_r, !insert_insert_eq, insert_delete_eq, <- !app_assoc. reflexivity.
Qed.

End Resume.

Lemma requests_app (l l' : list event) : requests (l ++ l') = requests l ++ requests l'.
Proof. unfold requests. apply omap_app. Qed.

(** C5, as amended. Resumption exists in the index downloader only. Given a
    non-empty local file of N bytes and a remote file of M bytes served to
    the letter, [IndexDownload.download_file] ends with a local file of M
    bytes. When N < M it sends one range request starting at offset N and
    appends the M - N bytes that come back. When M < N the range request is
    rejected with 416: the local file is removed and one plain request, sent
    within the same attempt, fetches the file whole. [download_nc_file] and
    the scanner's [download_file] never send a range request. *)
Theorem resume_completes_the_file
    (url save_path : string) (partial content : list byte)
    (rest : list (request -> reply)) (w : world) :
  fs w !! save_path = Some partial ->
  0 < Z.of_nat (length partial) ->
  Z.of_nat (length partial) <> Z.of_nat (length content) ->
  net w !! url = Some (serve content :: serve content :: serve content :: rest) ->
  let N := Z.of_nat (length partial) in
  let M := Z.of_nat (length content) in
  let run := IndexDownload.download_file url save_path w in
  run.1 = IndexDownload.Downloaded /\
  getsize save_path run.2 = M /\
  (N < M ->
   fs run.2 !! save_path = Some (partial ++ List.skipn (length partial) content) /\
   Z.of_nat (length (List.skipn (length partial) content)) = M - N /\
   requests (log run.2) =
   requests (log w) ++ [Request HEAD url None; Request GET url (Some N)]) /\
  (M < N ->
   fs run.2 !! save_path = Some content /\
   log run.2 = log w ++ [Requested (Request HEAD url None);
                         Requested (Request GET url (Some N));
                         Removed save_path;
                         Requested (Request GET url None);
                         Opened save_path false]).
Proof.
  intros Hlocal Hpartial Hdiffer Hremote. cbv zeta.
  destruct (Z.lt_ge_cases (Z.of_nat (length partial)) (Z.of_nat (length content)))
    as [Hlt|Hge].
  - rewrite (resume_appends url save_path partial content rest w
               Hlocal Hpartial Hdiffer Hremote Hlt).
    cbn [fst snd]. unfold getsize. cbn [fs log].
    rewrite lookup_insert_eq. cbn [default from_option id].
    rewrite length_app, length_skipn.
    repeat split; try lia.
    rewrite requests_app. reflexivity.
  - assert (Hlt : Z.of_nat (length content) < Z.of_nat (length partial)) by lia.
    rewrite (resume_rejected url save_path partial content rest w
               Hlocal Hpartial Hdiffer Hremote Hlt).
    cbn [fst snd]. unfold getsize. cbn [fs log].
    rewrite lookup_insert_eq. cbn [default from_option id].
    repeat split; try lia.
Qed.

Lemma resume_completes_the_file_witness :
  let run := IndexDownload.download_file b_url b_path b_partial in
  run.1 = IndexDownload.Downloaded /\
  getsize b_path run.2 = 3 /\
  fs run.2 !! b_path = Some [x02; x03; x04] /\
  requests (log run.2) = [Request HEAD b_url None; Request GET b_url (Some 1)].
Proof.
  pose proof (resume_completes_the_file b_url b_path [x02] [x02; x03; x04]
                [] (World {[ b_path := [x02] ]}
                          {[ b_url := [serve [x02; x03; x04]; serve [x02; x03; x04];
                                       serve [x02; x03; x04]] ]} [])) as H.
  cbv zeta in H.
  destruct H as (H1 & H2 & H3 & _);
    [vm_compute; reflexivity | vm_compute; reflexivity | vm_compute; discriminate
    | vm_compute; reflexivity |].
  destruct H3 as (H3 & _ & H4); [vm_compute; reflexivity|].
  cbv zeta. vm_compute. repeat split.
Defined.

(** C5, as stated, fails for the other two downloaders. With a partial copy
    of one byte in place and the remote file three bytes long,
    [download_nc_file] sends a plain request and overwrites the file, and the
    scanner's [download_file] takes the partial copy for the file and sends
    nothing. *)
Lemma download_nc_file_never_resumes :
  (let '(ok, w') := download_nc_file b_url b_path 1 b_partial in
   ok = true /\
   log w' = [Requested (Request GET b_url None); Opened b_path false]) /\
  NetcdfDownload.download_file b_url b_path b_partial = (true, b_partial) /\
  getsize b_path b_partial = 1.
Proof. vm_compute. repeat split. Qed.

(** ** Presence *)

Lemma getsize_send (p : string) (r : request) (w : world) :
  getsize p (send r w).2 = getsize p w.
Proof. unfold getsize. now rewrite send_fs. Qed.

Lemma is_file_complete_iff (p url : string) (w : world) :
  (IndexDownload.is_file_complete p url w).1 = true <->
  path_exists p w = true /\
  exists cl chunks intact,
    (send (Request HEAD url None) w).1 = Answer 200 cl chunks intact /\
    getsize p w = default 0 cl.
Proof.
  unfold IndexDownload.is_file_complete.
  destruct (path_exists p w); cbn [negb]; [|split; [discriminate|intros [? _]; discriminate]].
  pose proof (getsize_send p (Request HEAD url None) w) as Hg.
  destruct (send (Request HEAD url None) w) as [[status cl chunks intact|] w1];
    cbn [fst snd] in *.
  - destruct (Z.eqb_spec status 200) as [->|Hs].
    + rewrite Hg. set (ls := getsize p w). set (ss := default 0 cl).
      assert (Hls : 0 <= ls) by (unfold ls, getsize; lia).
      assert (Hrhs : (true = true /\
                      exists cl' chunks' intact',
                        Answer 200 cl chunks intact = Answer 200 cl' chunks' intact' /\
                        ls = default 0 cl') <-> ls = ss).
      { split.
        - intros (_ & cl' & chunks' & intact' & Heq & Hsz). now inversion Heq; subst.
        - intros Hsz. split; [reflexivity|]. now exists cl, chunks, intact. }
      rewrite Hrhs.
      destruct (Z.ltb_spec 0 ss) as [H0|H0], (Z.eqb_spec ls ss) as [H1|H1],
        (Z.eqb_spec ss 0) as [H2|H2], (Z.eqb_spec ls 0) as [H3|H3];
        cbn [andb fst]; split; intros Hx; try reflexivity; try discriminate; lia.
    + split; [discriminate|].
      intros (_ & cl' & chunks' & intact' & Heq & _). inversion Heq. congruence.
  - split; [discriminate|]. intros (_ & cl' & chunks' & intact' & Heq & _). discriminate.
Qed.

(** C4, as amended. [is_file_valid] holds exactly of a file that exists and is
    not empty. [is_file_complete] holds exactly when the file exists, the HEAD
    request is answered with status 200, and the local size equals the size
    that answer reports (a missing header counting as 0); when the HEAD
    request fails the file is not complete, whatever its size. The scanner's
    [download_file] takes any existing path for present, sends nothing and
    leaves it as it is; for a missing path it sends one plain request. *)
Theorem presence_checks :
  (forall p w, is_file_valid p w = true <-> path_exists p w = true /\ 0 < getsize p w) /\
  (forall p url w,
     (IndexDownload.is_file_complete p url w).1 = true <->
     path_exists p w = true /\
     exists cl chunks intact,
       (send (Request HEAD url None) w).1 = Answer 200 cl chunks intact /\
       getsize p w = default 0 cl) /\
  (forall url p w,
     path_exists p w = true -> NetcdfDownload.download_file url p w = (true, w)) /\
  (forall url p w,
     path_exists p w = false ->
     log (NetcdfDownload.download_file url p w).2 = log w ++ [Requested (Request GET url None)]
     \/ exists append,
         log (NetcdfDownload.download_file url p w).2 =
         log w ++ [Requested (Request GET url None); Opened p append]).
Proof.
  split; [|split; [|split]].
  - intros p w. unfold is_file_valid. rewrite andb_true_iff, Z.ltb_lt. reflexivity.
  - apply is_file_complete_iff.
  - intros url p w H. unfold NetcdfDownload.download_file. now rewrite H.
  - intros url p w H. unfold NetcdfDownload.download_file. rewrite H.
    unfold send. cbn [rq_url].
    destruct (net w !! url) as [[|f rest]|]; cbn [record log snd]; try (now left).
    destruct (f (Request GET url None)) as [status cl chunks intact|]; [|now left].
    destruct (status =? 200); [|now left].
    right. exists false. cbn [snd write_file log]. now rewrite <- app_assoc.
Qed.

Lemma presence_checks_witness :
  path_exists b_path b_empty_local = true /\
  NetcdfDownload.download_file b_url b_path b_empty_local = (true, b_empty_local).
Proof.
  split; [reflexivity|].
  apply (proj1 (proj2 (proj2 presence_checks)) b_url b_path b_empty_local).
  reflexivity.
Defined.

(** C4, as stated, fails twice. The scanner's [download_file] finds an empty
    file in place and does not fetch it again. And [is_file_complete] rejects
    a non-empty file when the HEAD request gets no answer, though no expected
    size is known then. *)
Lemma empty_file_not_refetched :
  (path_exists b_path b_empty_local = true /\
   getsize b_path b_empty_local = 0 /\
   NetcdfDownload.download_file b_url b_path b_empty_local = (true, b_empty_local)) /\
  (path_exists b_path b_remote_silent = true /\
   0 < getsize b_path b_remote_silent /\
   (send (Request HEAD b_url None) b_remote_silent).1 = NoAnswer /\
   (IndexDownload.is_file_complete b_path b_url b_remote_silent).1 = false).
Proof. vm_compute. repeat split. Qed.

(** ** Deduplication *)

Section Dedup.

Lemma query_index_NoDup (table : list index_row) (region : string) (year : Z) :
  NoDup (query_index table region year).
Proof. apply NoDup_elements. Qed.

Lemma query_index_elem (table : list index_row) (region : string) (year : Z) (p : string) :
  p ∈ query_index table region year <->
  exists r, r ∈ table /\ row_region r = region /\ row_year r = year /\
            clean_file_path (row_file_path r) = p.
Proof.
  unfold query_index, normalized_paths, select_rows.
  rewrite elem_of_elements, elem_of_list_to_set, list_elem_of_fmap.
  split.
  - intros (r & -> & Hr). apply list_elem_of_filter in Hr as [[H1 H2] Hr]. now exists r.
  - intros (r & Hr & H1 & H2 & <-). exists r. split; [reflexivity|].
    apply list_elem_of_filter. now split.
Qed.

(** The URLs of the planned tasks are among the URLs of the files, in order. *)
Lemma plan_urls_sublist (region : string) (files : list string) (w : world) :
  (plan region files w).2.*1 `sublist_of` ((fun f => BASE_URL +:+ f) <$> files).
Proof.
  induction files as [|f files IH]; [reflexivity|].
  cbn [plan]. destruct (plan region files w) as [paths tasks]. cbn [snd] in *.
  destruct (negb _); cbn.
  - now apply sublist_skip.
  - now apply sublist_cons.
Qed.

Lemma plan_urls_NoDup (region : string) (files : list string) (w : world) :
  NoDup files -> NoDup (plan region files w).2.*1.
Proof.
  intros H. eapply sublist_NoDup; [|apply plan_urls_sublist].
  apply NoDup_fmap_2; [|exact H]. apply String.app_inj.
Qed.

End Dedup.

(** C6, as amended. In the run of [fetch_data] the normalized catalog paths
    are deduplicated before planning: [query_index] returns each normalized
    path of the partition once, and no two planned tasks have the same URL,
    so no normalized path yields two tasks. The directory scanner does no
    deduplication, and two different normalized paths may still be mapped to
    one local path. *)
Theorem catalog_paths_deduplicated
    (retries : Z) (table : list index_row) (region : string) (year : Z) (w : world) :
  NoDup (query_index table region year) /\
  (forall p, p ∈ query_index table region year <->
             exists r, r ∈ table /\ row_region r = region /\ row_year r = year /\
                       clean_file_path (row_file_path r) = p) /\
  NoDup (download_tasks (fetch_data_budget retries table region year w).1).*1 /\
  NoDup (download_tasks (fetch_data_budget retries table region year w).1).
Proof.
  assert (Hurls : NoDup (download_tasks (fetch_data_budget retries table region year w).1).*1).
  { destruct (query_index table region year) as [|f files] eqn:E.
    - rewrite fetch_data_budget_empty by exact E. constructor.
    - rewrite fetch_data_budget_run by (rewrite E; discriminate).
      cbv zeta. cbn [fst download_tasks].
      apply plan_urls_NoDup, query_index_NoDup. }
  repeat split.
  - apply query_index_NoDup.
  - apply query_index_elem.
  - apply query_index_elem.
  - exact Hurls.
  - eapply NoDup_fmap_1, Hurls.
Qed.

(** C6, as stated, fails on both paths. The scanner turns a listing that names
    one file twice into two identical tasks. And [fetch_data] plans two tasks
    with the same local path when the index lists a file once with the
    duplicated prefix and once with the single one. *)
Lemma duplicate_tasks_are_planned :
  (let tasks := (NetcdfDownload.scan_and_download "indian" [2020] listing_names_a_twice).1.1 in
   tasks = [(year_url +:+ "a.nc", "argo_float_data/indian/2020/a.nc");
            (year_url +:+ "a.nc", "argo_float_data/indian/2020/a.nc")] /\
   ~ NoDup tasks.*2) /\
  (let tasks := download_tasks (fetch_data a_listed_twice "indian" 2020 (World ∅ ∅ [])).1 in
   tasks.*2 = [a_path; a_path] /\ ~ NoDup tasks.*2).
Proof.
  split; cbv zeta.
  - assert (E : (NetcdfDownload.scan_and_download "indian" [2020] listing_names_a_twice).1.1
                = [(year_url +:+ "a.nc", "argo_float_data/indian/2020/a.nc");
                   (year_url +:+ "a.nc", "argo_float_data/indian/2020/a.nc")])
      by (vm_compute; reflexivity).
    rewrite E. split; [reflexivity|].
    cbn. intros H. apply NoDup_cons in H as [H _]. apply H. left.
  - assert (E : (download_tasks (fetch_data a_listed_twice "indian" 2020 (World ∅ ∅ [])).1).*2
                = [a_path; a_path]) by (vm_compute; reflexivity).
    rewrite E. split; [reflexivity|].
    intros H. apply NoDup_cons in H as [H _]. apply H. left.
Qed.

(** * Further properties of the code *)

(** ** What requests a download sends *)

Lemma log_send (r : request) (w : world) : log (send r w).2 = log w ++ [Requested r].
Proof. unfold send. now destruct (net w !! rq_url r) as [[|f rest]|]. Qed.

Lemma requests_sent (l : list event) (r : request) :
  requests (l ++ [Requested r]) = requests l ++ [r].
Proof. now rewrite requests_app. Qed.

Lemma requests_slept (l : list event) (secs : Z) : requests (l ++ [Slept secs]) = requests l.
Proof. rewrite requests_app. apply app_nil_r. Qed.

Lemma requests_opened (l : list event) (p : string) (a : bool) :
  requests (l ++ [Opened p a]) = requests l.
Proof. rewrite requests_app. apply app_nil_r. Qed.

Lemma requests_removed (l : list event) (p : string) : requests (l ++ [Removed p]) = requests l.
Proof. rewrite requests_app. apply app_nil_r. Qed.

Lemma path_exists_written (p : string) (a : bool) (chunks : list (list byte)) (w : world) :
  path_exists p (write_file p a chunks w) = true.
Proof. unfold path_exists, write_file. cbn [fs]. now rewrite lookup_insert_eq. Qed.

Lemma nc_attempts_requests (n : nat) (url lp : string) (w : world) :
  exists k, (k <= n)%nat /\
    requests (log (nc_attempts n url lp w).2)
    = requests (log w) ++ replicate k (Request GET url None).
Proof.
  revert w. induction n as [|n IH]; intros w.
  - exists O. split; [lia|]. cbn. now rewrite app_nil_r.
  - cbn [nc_attempts].
    pose proof (log_send (Request GET url None) w) as Hl.
    destruct (send (Request GET url None) w) as [rep w1]. cbn [snd] in Hl.
    assert (Hone : requests (log w1) = requests (log w) ++ replicate 1 (Request GET url None))
      by (rewrite Hl; apply requests_sent).
    assert (Hmore : forall w2, requests (log w2) = requests (log w1) ->
              exists k, (k <= S n)%nat /\
                requests (log (nc_attempts n url lp w2).2)
                = requests (log w) ++ replicate k (Request GET url None)).
    { intros w2 H2. destruct (IH w2) as (k & Hk & Hr).
      exists (S k). split; [lia|].
      rewrite Hr, H2, Hone, <- app_assoc. reflexivity. }
    destruct rep as [status cl chunks intact|].
    + destruct (status =? 200).
      * destruct intact.
        -- exists 1%nat. split; [lia|]. cbn [snd write_file log].
           now rewrite requests_opened.
        -- apply Hmore. cbn [sleep record write_file log].
           now rewrite requests_slept, requests_opened.
      * destruct (status =? 404).
        -- exists 1%nat. split; [lia|]. exact Hone.
        -- now apply Hmore.
    + apply Hmore. cbn [sleep record log]. now rewrite requests_slept.
Qed.

Lemma nc_attempts_success (n : nat) (url lp : string) (w : world) :
  (nc_attempts n url lp w).1 = true -> path_exists lp (nc_attempts n url lp w).2 = true.
Proof.
  revert w. induction n as [|n IH]; intros w; [discriminate|].
  cbn [nc_attempts].
  destruct (send (Request GET url None) w) as [[status cl chunks intact|] w1].
  - destruct (status =? 200).
    + destruct intact; [intros _; apply path_exists_written | apply IH].
    + destruct (status =? 404); [discriminate | apply IH].
  - apply IH.
Qed.

(** X1. [download_nc_file] sends at most [retries] requests, each a plain GET
    of its URL; when it returns [True] the destination exists; and it never
    changes a path other than its destination. *)
Theorem download_nc_file_effects (url local_path : string) (retries : Z) (w : world) :
  let run := download_nc_file url local_path retries w in
  (exists k, (k <= Z.to_nat retries)%nat /\
     requests (log run.2) = requests (log w) ++ replicate k (Request GET url None)) /\
  (run.1 = true -> path_exists local_path run.2 = true) /\
  (forall q, q <> local_path -> fs run.2 !! q = fs w !! q).
Proof.
  cbv zeta. unfold download_nc_file. split; [|split].
  - apply nc_attempts_requests.
  - apply nc_attempts_success.
  - intros q Hq. now apply nc_attempts_other.
Qed.

Lemma download_nc_file_effects_witness :
  (download_nc_file b_url b_path 3 b_third_time).1 = true /\
  path_exists b_path (download_nc_file b_url b_path 3 b_third_time).2 = true.
Proof.
  assert (H : (download_nc_file b_url b_path 3 b_third_time).1 = true)
    by (vm_compute; reflexivity).
  split; [exact H|].
  exact (proj1 (proj2 (download_nc_file_effects b_url b_path 3 b_third_time)) H).
Defined.

(** ** What the planner plans *)

(** X2. The download tasks of a run are exactly the expected files whose
    local copy is missing or empty when the run starts: each such file gets
    the task made of its URL and its local path, and nothing else is
    planned. *)
Theorem tasks_are_exactly_the_missing_files
    (retries : Z) (table : list index_row) (region : string) (year : Z) (w : world)
    (u lp : string) :
  (u, lp) ∈ download_tasks (fetch_data_budget retries table region year w).1 <->
  exists f, f ∈ query_index table region year /\
            u = BASE_URL +:+ f /\ lp = local_path_of region f /\
            is_file_valid lp w = false.
Proof.
  destruct (query_index table region year) as [|f files] eqn:E.
  - rewrite fetch_data_budget_empty by exact E. cbn [fst download_tasks].
    split; [intros H%elem_of_nil; contradiction|].
    intros (g & H%elem_of_nil & _). contradiction.
  - rewrite fetch_data_budget_run by (rewrite E; discriminate).
    cbv zeta. cbn [fst download_tasks]. rewrite E. apply plan_tasks_elem.
Qed.

Lemma query_index_nil (table : list index_row) (region : string) (year : Z) :
  query_index table region year = [] <-> select_rows table region year = [].
Proof.
  unfold query_index, normalized_paths. rewrite elements_empty_iff.
  destruct (select_rows table region year) as [|r rows].
  - split; [reflexivity|]. intros _. cbn. reflexivity.
  - split; [|discriminate]. intros H. exfalso.
    assert (Hin : clean_file_path (row_file_path r) ∈
                  (list_to_set ((fun r => clean_file_path (row_file_path r)) <$> r :: rows)
                   : gset string))
      by (apply elem_of_list_to_set; left).
    rewrite H in Hin. now apply not_elem_of_empty in Hin.
Qed.

(** X3. [check_and_download_files] returns the empty list, which the workflow
    takes for a failed step, exactly when the index query raises, the index
    table has no row for the region and year, or [os.makedirs] raises for a
    planned destination; failed downloads never make it empty. *)
Theorem check_and_download_files_empty
    (db : option (list index_row)) (region : string) (year : Z) (w : world) :
  (check_and_download_files_db db region year w).1 = [] <->
  match db with
  | None => True
  | Some table =>
      select_rows table region year = [] \/
      exists t, t ∈ (plan region (query_index table region year) w).2 /\
                makedirs_raises (dirname t.2) w = true
  end.
Proof.
  destruct db as [table|]; [|now split].
  unfold check_and_download_files_db, check_and_download_files.
  rewrite fetch_data_call_eq.
  destruct (existsb (fun t => makedirs_raises (dirname t.2) w)
              (plan region (query_index table region year) w).2) eqn:Ex.
  - cbn [fst]. split; [|reflexivity]. intros _. right. now apply existsb_true_elem.
  - assert (Hnone : ~ exists t, t ∈ (plan region (query_index table region year) w).2 /\
                                makedirs_raises (dirname t.2) w = true).
    { intros H%existsb_true_elem. congruence. }
    rewrite <- query_index_nil. unfold fetch_data.
    destruct (query_index table region year) as [|f files] eqn:E.
    + rewrite fetch_data_budget_empty by (rewrite E; reflexivity). cbn.
      split; [now left | reflexivity].
    + rewrite fetch_data_budget_run by (rewrite E; discriminate).
      cbv zeta. cbn [fst snd local_paths]. rewrite plan_paths, E. cbn.
      split; [discriminate|]. intros [H|H]; [discriminate | contradiction].
Qed.

(** ** Outcomes of the index download *)

Section IndexOutcomes.

Import IndexDownload.

Lemma is_file_complete_fs (p url : string) (w : world) :
  fs (is_file_complete p url w).2 = fs w.
Proof.
  unfold is_file_complete. destruct (path_exists p w); cbn [negb]; [|reflexivity].
  pose proof (send_fs (Request HEAD url None) w) as Hs.
  destruct (send (Request HEAD url None) w) as [[status cl chunks intact|] w1];
    cbn [snd] in *; [|exact Hs].
  destruct (status =? 200); [|exact Hs].
  destruct (_ && _); [exact Hs|]. destruct (_ && _); exact Hs.
Qed.

Lemma is_file_complete_true_exists (p url : string) (w : world) :
  (is_file_complete p url w).1 = true -> path_exists p w = true.
Proof.
  unfold is_file_complete. destruct (path_exists p w); cbn [negb]; [reflexivity|discriminate].
Qed.

Lemma path_exists_lookup (p : string) (w w' : world) :
  fs w' !! p = fs w !! p -> path_exists p w' = path_exists p w.
Proof. intros H. unfold path_exists. now rewrite H. Qed.

Lemma remove_other (p q : string) (w : world) :
  q <> p -> fs (remove p w) !! q = fs w !! q.
Proof. intros H. unfold remove. cbn [fs]. now rewrite lookup_delete_ne. Qed.

Lemma cleanup_other (p q : string) (w : world) :
  q <> p -> fs (if path_exists p w then remove p w else w) !! q = fs w !! q.
Proof. intros H. destruct (path_exists p w); [now apply remove_other | reflexivity]. Qed.

Lemma attempt_other (url p q : string) (w : world) :
  q <> p -> fs (attempt url p w).2 !! q = fs w !! q.
Proof.
  intros Hq. unfold attempt.
  set (range := if 0 <? (if path_exists p w then getsize p w else 0)
                then Some (if path_exists p w then getsize p w else 0) else None).
  pose proof (send_fs (Request GET url range) w) as Hs.
  destruct (send (Request GET url range) w) as [[status cl chunks intact|] w1];
    cbn [snd] in *; [|now rewrite Hs].
  destruct (status =? 416).
  - pose proof (cleanup_other p q w1 Hq) as Hc.
    set (w2 := if path_exists p w1 then remove p w1 else w1) in *.
    pose proof (send_fs (Request GET url None) w2) as Hs2.
    destruct (send (Request GET url None) w2) as [[status2 cl2 chunks2 intact2|] w3];
      cbn [snd] in *; [|now rewrite Hs2, Hc, Hs].
    destruct (raises_for_status status2); cbn [snd].
    + now rewrite Hs2, Hc, Hs.
    + rewrite write_file_other by exact Hq. now rewrite Hs2, Hc, Hs.
  - destruct ((status =? 200) || (status =? 206)); cbn [snd].
    + rewrite write_file_other by exact Hq. now rewrite Hs.
    + destruct (raises_for_status status); cbn [snd]; now rewrite Hs.
Qed.

Lemma attempt_done_exists (url p : string) (w : world) :
  (attempt url p w).1 = true -> path_exists p (attempt url p w).2 = true.
Proof.
  unfold attempt.
  set (range := if 0 <? (if path_exists p w then getsize p w else 0)
                then Some (if path_exists p w then getsize p w else 0) else None).
  destruct (send (Request GET url range) w) as [[status cl chunks intact|] w1];
    [|discriminate].
  destruct (status =? 416).
  - set (w2 := if path_exists p w1 then remove p w1 else w1).
    destruct (send (Request GET url None) w2) as [[status2 cl2 chunks2 intact2|] w3];
      [|discriminate].
    destruct (raises_for_status status2); [discriminate|].
    intros _. apply path_exists_written.
  - destruct ((status =? 200) || (status =? 206)).
    + intros _. apply path_exists_written.
    + destruct (raises_for_status status); [discriminate|]. cbn [fst snd]. auto.
Qed.

Lemma attempts_other (n : nat) (url p q : string) (w : world) :
  q <> p -> fs (attempts n url p w).2 !! q = fs w !! q.
Proof.
  intros Hq. revert w. induction n as [|n IH]; intros w; [reflexivity|].
  cbn [attempts]. pose proof (attempt_other url p q w Hq) as Ha.
  destruct (attempt url p w) as [[|] w1]; cbn [snd] in *; [exact Ha|].
  rewrite IH. cbn [sleep record fs]. now rewrite cleanup_other.
Qed.

Lemma attempts_downloaded_exists (n : nat) (url p : string) (w : world) :
  (attempts n url p w).1 = Downloaded -> path_exists p (attempts n url p w).2 = true.
Proof.
  revert w. induction n as [|n IH]; intros w; [discriminate|].
  cbn [attempts]. pose proof (attempt_done_exists url p w) as Ha.
  destruct (attempt url p w) as [[|] w1]; cbn [fst snd] in *; [auto | apply IH].
Qed.

End IndexOutcomes.

(** X4. What [download_file] of the index downloader leaves behind. When it
    skips, the local store is as before and the file was there. When it
    reports a download, the destination exists. When it gives up, the
    destination does not exist. In every case no other path is changed. *)
Theorem index_download_file_outcomes (url save_path : string) (w : world) :
  let run := IndexDownload.download_file url save_path w in
  (run.1 = IndexDownload.Skipped -> fs run.2 = fs w /\ path_exists save_path w = true) /\
  (run.1 = IndexDownload.Downloaded -> path_exists save_path run.2 = true) /\
  (run.1 = IndexDownload.GaveUp -> path_exists save_path run.2 = false) /\
  (forall q, q <> save_path -> fs run.2 !! q = fs w !! q).
Proof.
  cbv zeta. unfold IndexDownload.download_file.
  pose proof (is_file_complete_fs save_path url w) as Hfs.
  pose proof (is_file_complete_true_exists save_path url w) as Hex.
  destruct (IndexDownload.is_file_complete save_path url w) as [[|] w1]; cbn [fst snd] in *.
  - repeat split; try discriminate; auto. intros q _. now rewrite Hfs.
  - split; [|split; [|split]].
    + intros H. exfalso. revert H.
      change (Z.to_nat IndexDownload.MAX_RETRIES) with 3%nat. cbn [IndexDownload.attempts].
      repeat (destruct (IndexDownload.attempt _ _ _) as [[|] ?]; [discriminate|]).
      discriminate.
    + apply attempts_downloaded_exists.
    + apply index_gave_up_no_file. change (Z.to_nat IndexDownload.MAX_RETRIES) with 3%nat. lia.
    + intros q Hq. rewrite attempts_other by exact Hq. now rewrite Hfs.
Qed.

Lemma index_download_file_outcomes_witness :
  (IndexDownload.download_file b_url b_path b_third_time).1 = IndexDownload.Downloaded /\
  path_exists b_path (IndexDownload.download_file b_url b_path b_third_time).2 = true.
Proof.
  assert (H : (IndexDownload.download_file b_url b_path b_third_time).1
              = IndexDownload.Downloaded) by (vm_compute; reflexivity).
  split; [exact H|].
  exact (proj1 (proj2 (index_download_file_outcomes b_url b_path b_third_time)) H).
Defined.

(** X5. A file whose size is the size the remote reports is skipped: the index
    downloader sends the HEAD request and nothing else, and writes nothing.
    This covers the empty file of an empty remote file. *)
Theorem complete_file_is_skipped
    (url save_path : string) (content : list byte) (chunks : list (list byte))
    (intact : bool) (w : world) :
  fs w !! save_path = Some content ->
  (send (Request HEAD url None) w).1
  = Answer 200 (Some (Z.of_nat (length content))) chunks intact ->
  IndexDownload.download_file url save_path w
  = (IndexDownload.Skipped, (send (Request HEAD url None) w).2).
Proof.
  intros Hlocal Hhead.
  unfold IndexDownload.download_file, IndexDownload.is_file_complete, path_exists.
  rewrite Hlocal. cbn [negb].
  pose proof (getsize_send save_path (Request HEAD url None) w) as Hg.
  destruct (send (Request HEAD url None) w) as [rep w1]. cbn [fst snd] in *.
  subst rep. cbn [Z.eqb Pos.eqb default from_option id].
  rewrite Hg. unfold getsize. rewrite Hlocal. cbn [default from_option id].
  rewrite Z.eqb_refl, andb_true_r.
  destruct (Z.ltb_spec 0 (Z.of_nat (length content))) as [H|H]; [reflexivity|].
  replace (Z.of_nat (length content)) with 0 by lia. reflexivity.
Qed.

Lemma complete_file_is_skipped_witness :
  IndexDownload.download_file b_url b_path
    (World {[ b_path := [x02; x03] ]} {[ b_url := [serve [x02; x03]] ]} [])
  = (IndexDownload.Skipped,
     World {[ b_path := [x02; x03] ]} (<[b_url := []]> {[ b_url := [serve [x02; x03]] ]})
           [Requested (Request HEAD b_url None)]).
Proof.
  exact (complete_file_is_skipped b_url b_path [x02; x03] [] true
           (World {[ b_path := [x02; x03] ]} {[ b_url := [serve [x02; x03]] ]} [])
           eq_refl eq_refl).
Defined.

(** ** How many requests the index download sends *)

Section IndexRequests.

Import IndexDownload.

Lemma sends_upto_same (url : string) (w w' : world) :
  requests (log w') = requests (log w) -> sends_upto 0 url w w'.
Proof. intros H. exists []. rewrite app_nil_r. repeat split; [exact H | reflexivity | constructor]. Qed.

Lemma sends_upto_trans (a b : nat) (url : string) (w w1 w2 : world) :
  sends_upto a url w w1 -> sends_upto b url w1 w2 -> sends_upto (a + b) url w w2.
Proof.
  intros (s1 & H1 & L1 & F1) (s2 & H2 & L2 & F2). exists (s1 ++ s2).
  repeat split.
  - now rewrite H2, H1, app_assoc.
  - rewrite length_app. lia.
  - now apply Forall_app.
Qed.

Lemma sends_upto_weaken (a b : nat) (url : string) (w w' : world) :
  (a <= b)%nat -> sends_upto a url w w' -> sends_upto b url w w'.
Proof. intros Hab (s & H & L & F). exists s. repeat split; [exact H | lia | exact F]. Qed.

Lemma sends_upto_send (m : http_method) (url : string) (range : option Z) (w : world) :
  sends_upto 1 url w (send (Request m url range) w).2.
Proof.
  exists [Request m url range]. rewrite log_send, requests_sent.
  repeat split; [reflexivity|]. now constructor.
Qed.

Lemma is_file_complete_sends (p url : string) (w : world) :
  sends_upto 1 url w (is_file_complete p url w).2.
Proof.
  unfold is_file_complete. destruct (path_exists p w); cbn [negb].
  - pose proof (sends_upto_send HEAD url None w) as Hs.
    destruct (send (Request HEAD url None) w) as [[status cl chunks intact|] w1];
      cbn [snd] in *; [|exact Hs].
    destruct (status =? 200); [|exact Hs].
    destruct (_ && _); [exact Hs|]. destruct (_ && _); exact Hs.
  - apply (sends_upto_weaken 0); [lia|]. now apply sends_upto_same.
Qed.

Lemma cleanup_requests (p : string) (w : world) :
  requests (log (if path_exists p w then remove p w else w)) = requests (log w).
Proof. destruct (path_exists p w); [apply requests_removed | reflexivity]. Qed.

Lemma attempt_sends (url p : string) (w : world) :
  sends_upto 2 url w (attempt url p w).2.
Proof.
  unfold attempt.
  set (range := if 0 <? (if path_exists p w then getsize p w else 0)
                then Some (if path_exists p w then getsize p w else 0) else None).
  pose proof (sends_upto_send GET url range w) as Hs.
  destruct (send (Request GET url range) w) as [[status cl chunks intact|] w1];
    cbn [snd] in *; [|now apply (sends_upto_weaken 1); [lia|]].
  destruct (status =? 416).
  - pose proof (cleanup_requests p w1) as Hc.
    set (w2 := if path_exists p w1 then remove p w1 else w1) in *.
    pose proof (sends_upto_send GET url None w2) as Hs2.
    assert (H12 : sends_upto (1 + 0) url w w2)
      by (eapply sends_upto_trans; [exact Hs | now apply sends_upto_same]).
    destruct (send (Request GET url None) w2) as [[status2 cl2 chunks2 intact2|] w3];
      cbn [snd] in *.
    + destruct (raises_for_status status2); cbn [snd].
      * apply (sends_upto_trans (1 + 0) 1 url w w2 w3 H12 Hs2).
      * apply (sends_upto_trans (1 + 0 + 1) 0 url w w3);
          [apply (sends_upto_trans (1 + 0) 1 url w w2 w3 H12 Hs2)|].
        apply sends_upto_same. apply requests_opened.
    + apply (sends_upto_trans (1 + 0) 1 url w w2 w3 H12 Hs2).
  - destruct ((status =? 200) || (status =? 206)); cbn [snd].
    + apply (sends_upto_trans 1 1 url w w1); [exact Hs|].
      apply (sends_upto_weaken 0); [lia|]. apply sends_upto_same. apply requests_opened.
    + apply (sends_upto_weaken 1); [lia|].
      destruct (raises_for_status status); exact Hs.
Qed.

Lemma attempts_sends (n : nat) (url p : string) (w : world) :
  sends_upto (2 * n) url w (attempts n url p w).2.
Proof.
  revert w. induction n as [|n IH]; intros w.
  - now apply sends_upto_same.
  - cbn [attempts]. pose proof (attempt_sends url p w) as Ha.
    destruct (attempt url p w) as [[|] w1]; cbn [snd] in *.
    + apply (sends_upto_weaken 2); [lia | exact Ha].
    + replace (2 * S n)%nat with (2 + (0 + 2 * n))%nat by lia.
      eapply sends_upto_trans; [exact Ha|].
      eapply sends_upto_trans; [|apply IH].
      apply sends_upto_same. cbn [sleep record log].
      rewrite requests_slept. apply cleanup_requests.
Qed.

End IndexRequests.

(** X6. One call of the index downloader's [download_file] sends at most
    seven requests (the HEAD request and at most two GET requests in each of
    the three attempts), all of them to its own URL. *)
Theorem index_download_file_sends_at_most_seven (url save_path : string) (w : world) :
  exists sent,
    requests (log (IndexDownload.download_file url save_path w).2)
    = requests (log w) ++ sent /\
    (length sent <= 7)%nat /\
    Forall (fun r => rq_url r = url) sent.
Proof.
  change (sends_upto 7 url w (IndexDownload.download_file url save_path w).2).
  unfold IndexDownload.download_file.
  pose proof (is_file_complete_sends save_path url w) as Hc.
  destruct (IndexDownload.is_file_complete save_path url w) as [[|] w1]; cbn [snd] in *.
  - apply (sends_upto_weaken 1); [lia | exact Hc].
  - apply (sends_upto_trans 1 (2 * 3) url w w1); [exact Hc|].
    apply attempts_sends.
Qed.

(** ** Error statuses and ignored ranges in the index download *)

Section IndexErrors.

Import IndexDownload.

Variables (url save_path : string) (w : world).

Lemma cleanup_absent (p : string) (v : world) :
  fs v !! p = None -> (if path_exists p v then remove p v else v) = v.
Proof. intros H. unfold path_exists. now rewrite H. Qed.

(** One attempt against an absent file and an error status. *)
Lemma attempt_error_status (status : Z) (rest : list (request -> reply)) :
  raises_for_status status = true ->
  status <> 416 ->
  fs w !! save_path = None ->
  net w !! url = Some (status_reply status :: rest) ->
  attempt url save_path w
  = (false, World (fs w) (<[url := rest]> (net w))
                  (log w ++ [Requested (Request GET url None)])).
Proof.
  intros Hr H416 Hnone Hnet. unfold attempt, path_exists. rewrite Hnone.
  cbn [Z.ltb Z.compare].
  rewrite (send_scripted (Request GET url None) w _ _ Hnet).
  unfold status_reply.
  replace (status =? 416) with false by (symmetry; now apply Z.eqb_neq).
  unfold raises_for_status in Hr. apply andb_true_iff in Hr as [H1 H2].
  apply Z.leb_le in H1. apply Z.ltb_lt in H2.
  replace (status =? 200) with false by (symmetry; apply Z.eqb_neq; lia).
  replace (status =? 206) with false by (symmetry; apply Z.eqb_neq; lia).
  cbn [orb]. unfold raises_for_status.
  replace (400 <=? status) with true by (symmetry; now apply Z.leb_le).
  replace (status <? 600) with true by (symmetry; now apply Z.ltb_lt).
  reflexivity.
Qed.

End IndexErrors.

(** X7. The index downloader retries every error status, 404 included: with
    the destination absent and the remote answering three times with a 4xx or
    5xx status other than 416, [download_file] sends three plain GET requests,
    sleeps five seconds after each, gives up, and leaves the local store
    unchanged. *)
Theorem index_download_retries_error_statuses
    (url save_path : string) (status : Z) (rest : list (request -> reply)) (w : world) :
  IndexDownload.raises_for_status status = true ->
  status <> 416 ->
  fs w !! save_path = None ->
  net w !! url
  = Some (status_reply status :: status_reply status :: status_reply status :: rest) ->
  IndexDownload.download_file url save_path w
  = (IndexDownload.GaveUp,
     World (fs w) (<[url := rest]> (net w))
           (log w ++ [Requested (Request GET url None); Slept 5;
                      Requested (Request GET url None); Slept 5;
                      Requested (Request GET url None); Slept 5])).
Proof.
  intros Hr H416 Hnone Hnet.
  unfold IndexDownload.download_file, IndexDownload.is_file_complete, path_exists.
  rewrite Hnone. cbn [negb].
  change (Z.to_nat IndexDownload.MAX_RETRIES) with 3%nat.
  cbn [IndexDownload.attempts].
  rewrite (attempt_error_status url save_path w status _ Hr H416 Hnone Hnet).
  rewrite cleanup_absent by exact Hnone. cbn [sleep record fs net log].
  erewrite attempt_error_status;
    [|exact Hr|exact H416|exact Hnone|cbn [net]; apply lookup_insert_eq].
  rewrite cleanup_absent by exact Hnone. cbn [sleep record fs net log].
  erewrite attempt_error_status;
    [|exact Hr|exact H416|exact Hnone|cbn [net]; apply lookup_insert_eq].
  rewrite cleanup_absent by exact Hnone.
  unfold sleep, record. cbn [fs net log].
  rewrite !insert_insert_eq, <- !app_assoc. reflexivity.
Qed.

Lemma index_download_retries_error_statuses_witness :
  IndexDownload.download_file b_url b_path b_not_found
  = (IndexDownload.GaveUp,
     World (fs b_not_found) (<[b_url := []]> (net b_not_found))
           ([] ++ [Requested (Request GET b_url None); Slept 5;
                   Requested (Request GET b_url None); Slept 5;
                   Requested (Request GET b_url None); Slept 5])).
Proof.
  refine (index_download_retries_error_statuses b_url b_path 404 [] b_not_found _ _ _ _);
    [reflexivity | discriminate | reflexivity | reflexivity].
Defined.

(** X8. A remote that ignores the range header corrupts a resumed index
    download: with a non-empty partial copy of another size in place,
    [download_file] sends the range request, takes the 200 answer for the rest
    of the file, appends the whole remote file to the partial copy and reports
    a download. *)
Theorem ignored_range_appends_whole_file
    (url save_path : string) (partial content : list byte)
    (rest : list (request -> reply)) (w : world) :
  fs w !! save_path = Some partial ->
  0 < Z.of_nat (length partial) ->
  Z.of_nat (length partial) <> Z.of_nat (length content) ->
  net w !! url
  = Some (serve_ignoring_range content :: serve_ignoring_range content :: rest) ->
  let run := IndexDownload.download_file url save_path w in
  run.1 = IndexDownload.Downloaded /\
  fs run.2 !! save_path = Some (partial ++ content) /\
  getsize save_path run.2 = Z.of_nat (length partial) + Z.of_nat (length content) /\
  requests (log run.2)
  = requests (log w) ++ [Request HEAD url None;
                         Request GET url (Some (Z.of_nat (length partial)))].
Proof.
  intros Hlocal Hpartial Hdiffer Hremote. cbv zeta.
  unfold IndexDownload.download_file, IndexDownload.is_file_complete, path_exists.
  rewrite Hlocal. cbn [negb].
  rewrite (send_scripted (Request HEAD url None) w _ _ Hremote).
  cbn [serve_ignoring_range rq_method rq_url default from_option id Z.eqb Pos.eqb].
  unfold getsize. cbn [fs]. rewrite Hlocal. cbn [default from_option id].
  replace (Z.of_nat (length partial) =? Z.of_nat (length content)) with false
    by (symmetry; now apply Z.eqb_neq).
  replace (Z.of_nat (length partial) =? 0) with false by (symmetry; apply Z.eqb_neq; lia).
  rewrite !andb_false_r.
  change (Z.to_nat IndexDownload.MAX_RETRIES) with 3%nat. cbn [IndexDownload.attempts].
  unfold IndexDownload.attempt, path_exists, getsize. cbn [fs]. rewrite Hlocal.
  cbn [default from_option id].
  replace (0 <? Z.of_nat (length partial)) with true by (symmetry; now apply Z.ltb_lt).
  erewrite send_scripted by (cbn [net rq_url]; apply lookup_insert_eq).
  cbn [serve_ignoring_range rq_method rq_url Z.eqb Pos.eqb orb fst snd].
  unfold write_file. cbn [fs net log]. rewrite Hlocal.
  cbn [default from_option id concat]. rewrite app_nil_r, lookup_insert_eq.
  cbn [default from_option id]. rewrite length_app, !requests_app.
  repeat split; [lia|]. cbn. now rewrite !app_nil_r, <- app_assoc.
Qed.

Lemma ignored_range_appends_whole_file_witness :
  fs (IndexDownload.download_file b_url b_path
        (World {[ b_path := [x02] ]}
               {[ b_url := [serve_ignoring_range [x02; x03; x04];
                            serve_ignoring_range [x02; x03; x04]] ]} [])).2 !! b_path
  = Some ([x02] ++ [x02; x03; x04]).
Proof.
  refine (proj1 (proj2 (ignored_range_appends_whole_file b_url b_path [x02] [x02; x03; x04] []
            (World {[ b_path := [x02] ]}
                   {[ b_url := [serve_ignoring_range [x02; x03; x04];
                                serve_ignoring_range [x02; x03; x04]] ]} []) _ _ _ _)));
    [reflexivity | reflexivity | discriminate | reflexivity].
Defined.

(** ** The scanner's downloads *)

Section ScannerDownloads.

Import NetcdfDownload.

Lemma path_exists_true_lookup (q : string) (w : world) :
  path_exists q w = true -> fs w !! q <> None.
Proof. unfold path_exists. destruct (fs w !! q); [discriminate | discriminate]. Qed.

(** [download_file] leaves every path but an absent destination alone. *)
Lemma scanner_download_other (url p q : string) (w : world) :
  q <> p \/ path_exists p w = true -> fs (download_file url p w).2 !! q = fs w !! q.
Proof.
  intros H. unfold download_file.
  destruct (path_exists p w) eqn:E; [reflexivity|].
  destruct H as [Hq|H]; [|discriminate].
  pose proof (send_fs (Request GET url None) w) as Hs.
  destruct (send (Request GET url None) w) as [[status cl chunks intact|] w1];
    cbn [snd] in *; [|now rewrite Hs].
  destruct (status =? 200); cbn [snd]; [|now rewrite Hs].
  rewrite write_file_other by exact Hq. now rewrite Hs.
Qed.

Lemma scanner_download_keeps (url p q : string) (w : world) :
  path_exists q w = true -> fs (download_file url p w).2 !! q = fs w !! q.
Proof.
  intros Hq. apply scanner_download_other.
  destruct (decide (q = p)) as [->|Hne]; [now right | now left].
Qed.

Lemma scanner_download_true (url p : string) (w : world) :
  (download_file url p w).1 = true -> path_exists p (download_file url p w).2 = true.
Proof.
  unfold download_file. destruct (path_exists p w) eqn:E; [intros _; exact E|].
  destruct (send (Request GET url None) w) as [[status cl chunks intact|] w1];
    [|discriminate].
  destruct (status =? 200); [|discriminate].
  intros _. apply path_exists_written.
Qed.

Lemma scanner_download_mono (url p q : string) (w : world) :
  path_exists q w = true -> path_exists q (download_file url p w).2 = true.
Proof.
  intros H. rewrite <- H. apply path_exists_lookup. now apply scanner_download_keeps.
Qed.

Lemma download_all_mono (tasks : list (string * string)) (q : string) (w : world) :
  path_exists q w = true -> path_exists q (download_all tasks w).2 = true.
Proof.
  revert w. induction tasks as [|[url p] tasks IH]; intros w H; [exact H|].
  cbn [download_all]. pose proof (scanner_download_mono url p q w H) as H1.
  destruct (download_file url p w) as [ok w1]. cbn [snd] in H1.
  specialize (IH w1 H1). destruct (download_all tasks w1) as [oks w2]. exact IH.
Qed.

Lemma download_all_keeps (tasks : list (string * string)) (q : string) (w : world) :
  path_exists q w = true -> fs (download_all tasks w).2 !! q = fs w !! q.
Proof.
  revert w. induction tasks as [|[url p] tasks IH]; intros w H; [reflexivity|].
  cbn [download_all].
  pose proof (scanner_download_mono url p q w H) as H1.
  pose proof (scanner_download_keeps url p q w H) as H2.
  destruct (download_file url p w) as [ok w1]. cbn [snd] in H1, H2.
  specialize (IH w1 H1). destruct (download_all tasks w1) as [oks w2].
  cbn [snd] in *. congruence.
Qed.

(** Tasks whose destinations all exist are skipped without any effect. *)
Lemma download_all_present (tasks : list (string * string)) (w : world) :
  Forall (fun t => path_exists t.2 w = true) tasks ->
  download_all tasks w = ((fun _ => true) <$> tasks, w).
Proof.
  induction 1 as [|[url p] tasks Hp _ IH]; [reflexivity|].
  cbn [download_all]. unfold download_file. cbn [snd] in Hp. rewrite Hp, IH. reflexivity.
Qed.

(** After a pass in which every task succeeded, every destination exists. *)
Lemma download_all_success (tasks : list (string * string)) (w : world) :
  Forall (fun b => b = true) (download_all tasks w).1 ->
  (download_all tasks w).1 = (fun _ => true) <$> tasks /\
  Forall (fun t => path_exists t.2 (download_all tasks w).2 = true) tasks.
Proof.
  revert w. induction tasks as [|[url p] tasks IH]; intros w H; [now split|].
  cbn [download_all] in *.
  pose proof (scanner_download_true url p w) as Ht.
  destruct (download_file url p w) as [ok w1]. cbn [fst snd] in Ht.
  specialize (IH w1). pose proof (download_all_mono tasks p w1) as Hm.
  destruct (download_all tasks w1) as [oks w2]. cbn [fst snd] in *.
  apply Forall_cons in H as [-> H]. destruct (IH H) as [-> IH2].
  split; [reflexivity|]. constructor; [cbn [snd]; auto | exact IH2].
Qed.

End ScannerDownloads.

(** X9. The scanner's [download_file] never modifies a file that exists: every
    path present before the call has the same content after it. It changes no
    path but its destination, and when it returns [True] the destination
    exists. *)
Theorem scanner_download_file_effects (file_url local_path : string) (w : world) :
  let run := NetcdfDownload.download_file file_url local_path w in
  (forall q, path_exists q w = true -> fs run.2 !! q = fs w !! q) /\
  (forall q, q <> local_path -> fs run.2 !! q = fs w !! q) /\
  (run.1 = true -> path_exists local_path run.2 = true).
Proof.
  cbv zeta. split; [|split].
  - intros q Hq. now apply scanner_download_keeps.
  - intros q Hq. apply scanner_download_other. now left.
  - apply scanner_download_true.
Qed.

Lemma scanner_download_file_effects_witness :
  path_exists b_path b_empty_local = true /\
  fs (NetcdfDownload.download_file b_url b_path b_empty_local).2 !! b_path
  = fs b_empty_local !! b_path.
Proof.
  split; [reflexivity|].
  exact (proj1 (scanner_download_file_effects b_url b_path b_empty_local) b_path eq_refl).
Defined.

(** X10. The download phase of the scanner is idempotent: after a pass in
    which every task returned [True], a second pass over the same tasks
    returns the same results and changes nothing; it sends no request. *)
Theorem scanner_downloads_idempotent (tasks : list (string * string)) (w : world) :
  let run := NetcdfDownload.download_all tasks w in
  Forall (fun b => b = true) run.1 ->
  NetcdfDownload.download_all tasks run.2 = (run.1, run.2).
Proof.
  cbv zeta. intros H. destruct (download_all_success tasks w H) as [Hr Hp].
  rewrite Hr. now apply download_all_present.
Qed.

Lemma scanner_downloads_idempotent_witness :
  let run := NetcdfDownload.download_all [(b_url, b_path)] b_served in
  Forall (fun b => b = true) run.1 /\
  NetcdfDownload.download_all [(b_url, b_path)] run.2 = (run.1, run.2).
Proof.
  cbv zeta.
  assert (H : Forall (fun b => b = true)
                (NetcdfDownload.download_all [(b_url, b_path)] b_served).1)
    by (vm_compute; repeat constructor).
  split; [exact H|].
  exact (scanner_downloads_idempotent [(b_url, b_path)] b_served H).
Defined.

(** ** Scanning *)

Section Scanning.

Import NetcdfDownload.

Lemma fetch_url_fs (url : string) (w : world) : fs (fetch_url url w).2 = fs w.
Proof.
  unfold fetch_url. pose proof (send_fs (Request GET url None) w) as Hs.
  destruct (send (Request GET url None) w) as [[status cl chunks intact|] w1];
    cbn [snd] in *; [|exact Hs].
  now destruct ((status =? 200) && intact).
Qed.

Lemma scan_subdirs_fs (region folder_url : string) (year : Z) (folder_name : string)
    (subdirs : list (string * string)) (w : world) :
  fs (scan_subdirs region folder_url year folder_name subdirs w).2 = fs w.
Proof.
  revert w. induction subdirs as [|[h n] subdirs IH]; intros w; [reflexivity|].
  cbn [scan_subdirs]. pose proof (fetch_url_fs (folder_url +:+ h) w) as Hf.
  destruct (fetch_url (folder_url +:+ h) w) as [html w1]. cbn [snd] in Hf.
  specialize (IH w1).
  destruct (scan_subdirs region folder_url year folder_name subdirs w1) as [more w2].
  cbn [snd] in *. congruence.
Qed.

Lemma scan_folder_fs (region folder_url : string) (year : Z) (folder_name : string)
    (w : world) :
  fs (scan_folder region folder_url year folder_name w).2 = fs w.
Proof.
  unfold scan_folder. pose proof (fetch_url_fs folder_url w) as Hf.
  destruct (fetch_url folder_url w) as [html w1]. cbn [snd] in Hf.
  destruct (truthy html) as [page|]; [|exact Hf].
  destruct (parse_apache_directory_fast page) as [nc_files subdirs].
  pose proof (scan_subdirs_fs region folder_url year folder_name subdirs w1) as Hs.
  destruct (scan_subdirs region folder_url year folder_name subdirs w1) as [below w2].
  cbn [snd] in *. congruence.
Qed.

Lemma scan_folders_fs (region year_url : string) (year : Z)
    (dirs : list (string * string)) (w : world) :
  fs (scan_folders region year_url year dirs w).2 = fs w.
Proof.
  revert w. induction dirs as [|[h n] dirs IH]; intros w; [reflexivity|].
  cbn [scan_folders].
  pose proof (scan_folder_fs region (year_url +:+ h) year n w) as Hf.
  destruct (scan_folder region (year_url +:+ h) year n w) as [found w1]. cbn [snd] in Hf.
  specialize (IH w1). destruct (scan_folders region year_url year dirs w1) as [more w2].
  cbn [snd] in *. congruence.
Qed.

Lemma scan_fs (region : string) (years : list Z) (w : world) :
  fs (scan region years w).2 = fs w.
Proof.
  revert w. induction years as [|year years IH]; intros w; [reflexivity|].
  cbn [scan].
  set (year_url := base_url +:+ region +:+ "/" +:+ pretty year +:+ "/").
  pose proof (fetch_url_fs year_url w) as Hf.
  destruct (fetch_url year_url w) as [html w1]. cbn [snd] in Hf.
  assert (Hin : forall found w2,
            (match truthy html with
             | Some page =>
                 let '(files, dirs) := parse_apache_directory_fast page in
                 let direct := candidates year_url [region; pretty year] files in
                 let '(below, w2) := scan_folders region year_url year dirs w1 in
                 (direct ++ below, w2)
             | None => ([], w1)
             end) = (found, w2) -> fs w2 = fs w).
  { intros found w2. destruct (truthy html) as [page|].
    - destruct (parse_apache_directory_fast page) as [files dirs].
      pose proof (scan_folders_fs region year_url year dirs w1) as Hs.
      destruct (scan_folders region year_url year dirs w1) as [below w3].
      cbn [snd] in Hs. intros [= _ <-]. congruence.
    - intros [= _ <-]. exact Hf. }
  destruct (match truthy html with Some _ => _ | None => _ end) as [found w2].
  specialize (Hin found w2 eq_refl). specialize (IH w2).
  destruct (scan region years w2) as [more w3]. cbn [snd] in *. congruence.
Qed.

(** What one pattern accepts holds of everything [findall] returns. *)
Lemma findall_Forall (m : string -> option (string * string * string))
    (P : string * string -> Prop) :
  (forall s g1 g2 rest, m s = Some (g1, g2, rest) -> P (g1, g2)) ->
  forall skip s, Forall P (findall m skip s).
Proof.
  intros Hm skip s. revert skip.
  induction s as [|c s IH]; intros skip; [constructor|].
  cbn [findall]. destruct skip as [|k]; [|apply IH].
  destruct (m (String c s)) as [[[g1 g2] rest]|] eqn:E; [|apply IH].
  constructor; [now apply (Hm _ _ _ _ E) | apply IH].
Qed.

Lemma match_file_suffix (s g1 g2 rest : string) :
  match_file s = Some (g1, g2, rest) ->
  plus_then ".nc" g1 = true /\ plus_then ".nc" g2 = true.
Proof.
  unfold match_file. destruct (match_anchor s) as [[[h t] r]|]; [|discriminate].
  cbn. destruct (plus_then ".nc" h) eqn:E1, (plus_then ".nc" t) eqn:E2;
    cbn; try discriminate.
  now intros [= <- <- _].
Qed.

Lemma match_dir_suffix (s g1 g2 rest : string) :
  match_dir s = Some (g1, g2, rest) -> plus_then "/" g1 = true.
Proof.
  unfold match_dir. destruct (match_anchor s) as [[[h t] r]|]; [|discriminate].
  cbn. destruct (plus_then "/" h) eqn:E1, (plus_then "/" t) eqn:E2;
    cbn; try discriminate.
  now intros [= <- _ _].
Qed.

End Scanning.

(** X11. Scanning only reads: whatever the remote answers, [scan] leaves the
    local store exactly as it was. *)
Theorem scan_leaves_local_store (region : string) (years : list Z) (w : world) :
  fs (NetcdfDownload.scan region years w).2 = fs w.
Proof. apply scan_fs. Qed.

(** X12. Whatever the page, every file [parse_apache_directory_fast] returns
    has an href that ends with [.nc], in any letter case, after at least one
    other character, and every directory it returns has an href that ends
    with a slash after at least one other character. *)
Theorem parsed_hrefs_have_their_suffix (html_content : string) :
  Forall (fun f =>
            endswith (NetcdfDownload.lower_str (NetcdfDownload.href f)) ".nc" = true /\
            (3 < String.length (NetcdfDownload.href f))%nat)
         (NetcdfDownload.parse_apache_directory_fast html_content).1 /\
  Forall (fun d =>
            endswith (NetcdfDownload.lower_str d.1) "/" = true /\
            (1 < String.length d.1)%nat)
         (NetcdfDownload.parse_apache_directory_fast html_content).2.
Proof.
  unfold NetcdfDownload.parse_apache_directory_fast. cbn [fst snd]. split.
  - apply Forall_fmap.
    apply (findall_Forall NetcdfDownload.match_file).
    intros s g1 g2 rest H. apply match_file_suffix in H as [H _].
    unfold NetcdfDownload.plus_then in H. apply andb_true_iff in H as [H1 H2].
    cbn. split; [exact H1|]. apply Nat.ltb_lt in H2. exact H2.
  - apply (findall_Forall NetcdfDownload.match_dir).
    intros s g1 g2 rest H. apply match_dir_suffix in H.
    unfold NetcdfDownload.plus_then in H. apply andb_true_iff in H as [H1 H2].
    cbn. split; [exact H1|]. apply Nat.ltb_lt in H2. exact H2.
Qed.

(** ** Conversion: variable lookup and batches *)

Section DataLoadingFacts.

Import DataLoading.

Lemma upper_lower_char (c : ascii) : upper_char (lower_char c) = upper_char c.
Proof. destruct c as [[] [] [] [] [] [] [] []]; reflexivity. Qed.

Lemma str_upper_lower (s : string) : str_upper (str_lower s) = str_upper s.
Proof.
  induction s as [|c s IH]; [reflexivity|].
  cbn [str_lower str_upper]. now rewrite upper_lower_char, IH.
Qed.

Lemma same_upper (n1 n2 : string) : str_lower n1 = str_lower n2 -> str_upper n1 = str_upper n2.
Proof. intros H. now rewrite <- (str_upper_lower n1), H, str_upper_lower. Qed.

Lemma elem_of_concat {A : Type} (x : A) (ls : list (list A)) :
  x ∈ concat ls <-> exists l, l ∈ ls /\ x ∈ l.
Proof.
  induction ls as [|l ls IH]; cbn [concat].
  - split; [intros H%elem_of_nil; contradiction|].
    intros (l & H%elem_of_nil & _). contradiction.
  - rewrite elem_of_app, IH. split.
    + intros [H|(k & Hk & H)]; [exists l; split; [left|exact H] |].
      exists k. split; [now right | exact H].
    + intros (k & [->|Hk]%elem_of_cons & H); [now left|]. right. now exists k.
Qed.

Lemma omap_concat {A B : Type} (f : A -> option B) (ls : list (list A)) :
  omap f (concat ls) = concat ((fun l : list A => omap f l) <$> ls).
Proof.
  induction ls as [|l ls IH]; [reflexivity|].
  cbn [concat fmap list_fmap]. now rewrite omap_app, IH.
Qed.

Lemma omap_nonempty {A B : Type} (f : A -> option B) (l : list A) :
  omap f l <> [] <-> exists x, x ∈ l /\ is_Some (f x).
Proof.
  induction l as [|a l IH].
  - split; [intros H; now contradiction H|].
    intros (x & H%elem_of_nil & _). contradiction.
  - change (omap f (a :: l)) with
      (match f a with Some y => y :: omap f l | None => omap f l end).
    destruct (f a) as [b|] eqn:E.
    + split; [|intros _ H; discriminate H].
      intros _. exists a. split; [left|]. rewrite E. now exists b.
    + rewrite IH. split.
      * intros (x & Hx & H). exists x. split; [now right | exact H].
      * intros (x & [->|Hx]%elem_of_cons & H).
        -- rewrite E in H. now destruct H.
        -- now exists x.
Qed.

(** Slices of width [b] at the offsets [0, b, 2b, ...] rebuild the list. *)
Lemma slices_concat {A : Type} (b m : nat) (l : list A) :
  (length l <= m * b)%nat ->
  concat ((fun k => take b (List.skipn (k * b) l)) <$> seq 0 m) = l.
Proof.
  revert l. induction m as [|m IH]; intros l Hl.
  - cbn in *. destruct l; [reflexivity | cbn in Hl; lia].
  - rewrite <- cons_seq, <- fmap_S_seq. cbn [fmap list_fmap concat].
    rewrite <- list_fmap_compose.
    rewrite (list_fmap_ext _ (fun k => take b (List.skipn (k * b) (List.skipn b l)))).
    + rewrite IH; [apply take_drop|]. rewrite length_skipn. lia.
    + intros i k _. cbn. rewrite skipn_skipn. f_equal. f_equal. lia.
Qed.

Lemma ceil_bound (n b : nat) : (0 < b)%nat -> (n <= (n + b - 1) / b * b)%nat.
Proof.
  intros Hb. pose proof (Nat.div_mod_eq (n + b - 1) b) as H.
  pose proof (Nat.mod_upper_bound (n + b - 1) b ltac:(lia)) as Hr. nia.
Qed.

Lemma ceil_tight (n b k : nat) : (0 < b)%nat -> (k < (n + b - 1) / b)%nat -> (k * b < n)%nat.
Proof.
  intros Hb Hk. pose proof (Nat.div_mod_eq (n + b - 1) b) as H.
  pose proof (Nat.mod_upper_bound (n + b - 1) b ltac:(lia)) as Hr. nia.
Qed.

Lemma batches_concat (files : list string) : concat (batches files) = files.
Proof.
  unfold batches, range_step. rewrite <- list_fmap_compose.
  apply (slices_concat BATCH_SIZE). apply ceil_bound. unfold BATCH_SIZE. lia.
Qed.

Section Frames.

Context {DF : Type}.
Variable process_file : string -> string -> option DF.

Lemma convert_batches_frames (region : string) (year : Z) (n : nat)
    (todo : list (list string)) :
  concat (snd <$> (convert_batches process_file region year n todo).1)
  = omap (fun f => process_file f region) (concat todo).
Proof.
  revert n. induction todo as [|b todo IH]; intros n; [reflexivity|].
  cbn [convert_batches concat]. rewrite omap_app. specialize (IH (S n)).
  destruct (convert_batches process_file region year (S n) todo) as [written k].
  cbn [fst] in IH.
  destruct (omap (fun f => process_file f region) b) as [|d ds] eqn:E; cbn [fst].
  - now rewrite IH.
  - cbn [fmap list_fmap concat snd]. now rewrite IH.
Qed.

Lemma convert_batches_success (region : string) (year : Z) (n : nat)
    (todo : list (list string)) :
  (0 < (convert_batches process_file region year n todo).2)%nat <->
  exists f, f ∈ concat todo /\ is_Some (process_file f region).
Proof.
  revert n. induction todo as [|b todo IH]; intros n.
  - cbn. split; [lia|]. intros (f & H%elem_of_nil & _). contradiction.
  - cbn [convert_batches concat]. specialize (IH (S n)).
    destruct (convert_batches process_file region year (S n) todo) as [written k].
    cbn [snd] in IH.
    pose proof (omap_nonempty (fun f => process_file f region) b) as Hb.
    destruct (omap (fun f => process_file f region) b) as [|d ds]; cbn [snd].
    + rewrite IH. split.
      * intros (f & Hf & H). exists f. split; [apply elem_of_app; now right | exact H].
      * intros (f & [Hf|Hf]%elem_of_app & H); [|now exists f].
        exfalso. apply (proj2 Hb); [now exists f | reflexivity].
    + split; [|lia]. intros _.
      destruct (proj1 Hb ltac:(discriminate)) as (f & Hf & H).
      exists f. split; [apply elem_of_app; now left | exact H].
Qed.

End Frames.

End DataLoadingFacts.

(** X13. [get_variable] finds a variable stored under its lowercase or its
    uppercase name whatever the letter case of the name asked for: two names
    that differ only in case get the same answer, and it is a value. And it
    raises [KeyError] exactly when no default is given and the lowercase name,
    the uppercase name and the name as given are all missing. *)
Theorem get_variable_lookup {V : Type} (ds : gmap string V) (n1 n2 : string)
    (default_value : option V) :
  (DataLoading.str_lower n1 = DataLoading.str_lower n2 ->
   is_Some (ds !! DataLoading.str_lower n1) \/ is_Some (ds !! DataLoading.str_upper n1) ->
   DataLoading.get_variable ds n1 default_value = DataLoading.get_variable ds n2 default_value /\
   is_Some (DataLoading.get_variable ds n1 default_value)) /\
  (DataLoading.get_variable ds n1 None = None <->
   ds !! DataLoading.str_lower n1 = None /\ ds !! DataLoading.str_upper n1 = None /\
   ds !! n1 = None).
Proof.
  split.
  - intros Hl Hs. pose proof (same_upper n1 n2 Hl) as Hu.
    unfold DataLoading.get_variable. rewrite <- Hl, <- Hu.
    destruct (ds !! DataLoading.str_lower n1) as [v|]; [split; [reflexivity | now exists v]|].
    destruct (ds !! DataLoading.str_upper n1) as [v|]; [split; [reflexivity | now exists v]|].
    destruct Hs as [[v Hv]|[v Hv]]; discriminate.
  - unfold DataLoading.get_variable.
    destruct (ds !! DataLoading.str_lower n1), (ds !! DataLoading.str_upper n1), (ds !! n1);
      split; try discriminate; try tauto; intros (? & ? & ?); discriminate.
Qed.

Lemma get_variable_lookup_witness :
  DataLoading.get_variable ({[ "temp" := 7%Z ]} : gmap string Z) "TEMP" None
  = DataLoading.get_variable ({[ "temp" := 7%Z ]} : gmap string Z) "Temp" None.
Proof.
  refine (proj1 (proj1 (get_variable_lookup ({[ "temp" := 7%Z ]} : gmap string Z)
                          "TEMP" "Temp" None) _ _)).
  - reflexivity.
  - left. exists 7%Z. reflexivity.
Defined.

(** X14. The batch loop of [convert_data] slices the file list into batches
    that, put end to end, are the file list again: no file is left out or
    taken twice. No batch is empty or has more than [BATCH_SIZE] files, and
    there are as many batches as the length divided by [BATCH_SIZE], rounded
    up. *)
Theorem batches_partition (files : list string) :
  concat (DataLoading.batches files) = files /\
  Forall (fun b => (0 < length b <= DataLoading.BATCH_SIZE)%nat) (DataLoading.batches files) /\
  length (DataLoading.batches files)
  = ((length files + DataLoading.BATCH_SIZE - 1) / DataLoading.BATCH_SIZE)%nat.
Proof.
  split; [apply batches_concat|]. split.
  - unfold DataLoading.batches, DataLoading.range_step.
    rewrite <- list_fmap_compose. apply Forall_fmap, Forall_forall.
    intros k Hk. apply elem_of_seq in Hk. cbn.
    pose proof (ceil_tight (length files) DataLoading.BATCH_SIZE k) as Ht.
    unfold DataLoading.BATCH_SIZE in *.
    rewrite length_take, length_skipn. lia.
  - unfold DataLoading.batches, DataLoading.range_step.
    now rewrite !length_fmap, length_seq.
Qed.

(** X15. [convert_data] succeeds exactly when at least one of the files it is
    given can be read into a frame; and the frames in the parquet files it
    writes are, in order, the frames of the readable files, each once. *)
Theorem convert_data_result {DF : Type} (process_file : string -> string -> option DF)
    (region : string) (year : Z) (files : list string) :
  ((DataLoading.convert_data process_file region year files).1 = true <->
   exists f, f ∈ files /\ is_Some (process_file f region)) /\
  concat (snd <$> (DataLoading.convert_data process_file region year files).2)
  = omap (fun f => process_file f region) files.
Proof.
  unfold DataLoading.convert_data.
  destruct files as [|f0 files]; [|set (fs0 := f0 :: files)].
  - split; [|reflexivity]. split; [discriminate|].
    intros (f & H%elem_of_nil & _). contradiction.
  - pose proof (convert_batches_success process_file region year O
                  (DataLoading.batches fs0)) as Hs.
    pose proof (convert_batches_frames process_file region year O
                  (DataLoading.batches fs0)) as Hf.
    rewrite batches_concat in Hs, Hf.
    destruct (DataLoading.convert_batches process_file region year 0
                (DataLoading.batches fs0)) as [written k].
    cbn [fst snd] in *. split; [|exact Hf].
    rewrite Nat.ltb_lt. exact Hs.
Qed.

(** ** Files that are not reported as failed *)

Section NotFailed.

Lemma nc_attempts_mono (n : nat) (url lp q : string) (w : world) :
  path_exists q w = true -> path_exists q (nc_attempts n url lp w).2 = true.
Proof.
  revert w. induction n as [|n IH]; intros w Hq; [exact Hq|].
  cbn [nc_attempts].
  pose proof (send_fs (Request GET url None) w) as Hs.
  destruct (send (Request GET url None) w) as [[status cl chunks intact|] w1];
    cbn [snd] in Hs.
  - assert (H1 : path_exists q w1 = true)
      by (rewrite <- Hq; apply path_exists_lookup; now rewrite Hs).
    assert (H2 : path_exists q (write_file lp false chunks w1) = true).
    { destruct (decide (q = lp)) as [->|Hne]; [apply path_exists_written|].
      rewrite <- H1. apply path_exists_lookup. now apply write_file_other. }
    destruct (status =? 200).
    + destruct intact; [exact H2 | now apply IH].
    + destruct (status =? 404); [exact H1 | now apply IH].
  - apply IH. rewrite <- Hq. apply path_exists_lookup. cbn [sleep record fs]. now rewrite Hs.
Qed.

Lemma gather_mono (retries : Z) (tasks : list (string * string)) (q : string) (w : world) :
  path_exists q w = true -> path_exists q (gather retries tasks w).2 = true.
Proof.
  revert w. induction tasks as [|[url lp] tasks IH]; intros w Hq; [exact Hq|].
  cbn [gather]. unfold download_nc_file.
  pose proof (nc_attempts_mono (Z.to_nat retries) url lp q w Hq) as H1.
  destruct (nc_attempts (Z.to_nat retries) url lp w) as [ok w1]. cbn [snd] in H1.
  specialize (IH w1 H1). now destruct (gather retries tasks w1) as [oks w2].
Qed.

(** A task whose URL is not among the failures has its destination in place
    when all downloads are over. *)
Lemma gather_not_failed (retries : Z) (tasks : list (string * string)) (w : world)
    (u lp : string) :
  (u, lp) ∈ tasks ->
  u ∉ (count_results tasks (gather retries tasks w).1).2 ->
  path_exists lp (gather retries tasks w).2 = true.
Proof.
  revert w. induction tasks as [|[u0 lp0] tasks IH]; intros w Hin Hnf.
  - now apply elem_of_nil in Hin.
  - cbn [gather] in *. unfold download_nc_file in *.
    pose proof (nc_attempts_success (Z.to_nat retries) u0 lp0 w) as Hok.
    destruct (nc_attempts (Z.to_nat retries) u0 lp0 w) as [ok w1]. cbn [fst snd] in Hok.
    specialize (IH w1). pose proof (gather_mono retries tasks lp0 w1) as Hm.
    destruct (gather retries tasks w1) as [oks w2]. cbn [fst snd] in *.
    cbn [count_results] in Hnf.
    destruct (count_results tasks oks) as [n failed] eqn:Ec. cbn [snd] in IH.
    apply elem_of_cons in Hin as [[= -> ->]|Hin].
    + destruct ok; cbn [snd fst] in Hnf; [auto|].
      exfalso. apply Hnf. left.
    + apply IH; [exact Hin|]. destruct ok; cbn [snd fst] in Hnf; [exact Hnf|].
      intros H. apply Hnf. now right.
Qed.

End NotFailed.

(** X16. After a run, every expected file whose URL is not in the list of
    failed downloads has a local file in place: it was valid before the run
    and has not been touched, or its download returned [True]. *)
Theorem files_not_failed_exist
    (retries : Z) (table : list index_row) (region : string) (year : Z) (w : world)
    (f : string) :
  let run := fetch_data_budget retries table region year w in
  f ∈ query_index table region year ->
  BASE_URL +:+ f ∉ failed_downloads run.1 ->
  path_exists (local_path_of region f) run.2 = true.
Proof.
  cbv zeta. intros Hf.
  assert (Hne : query_index table region year <> [])
    by (intros E; rewrite E in Hf; now apply elem_of_nil in Hf).
  rewrite fetch_data_budget_run by exact Hne.
  cbv zeta. cbn [fst snd failed_downloads]. intros Hnf.
  destruct (is_file_valid (local_path_of region f) w) eqn:Ev.
  - apply gather_mono. unfold is_file_valid in Ev. now apply andb_true_iff in Ev as [Ev _].
  - apply (gather_not_failed _ _ _ (BASE_URL +:+ f)); [|exact Hnf].
    apply plan_tasks_elem. now exists f.
Qed.

Lemma files_not_failed_exist_witness :
  let run := fetch_data_budget 1 two_files "indian" 2020 b_served in
  "indian/2020/b.nc" ∈ query_index two_files "indian" 2020 /\
  path_exists (local_path_of "indian" "indian/2020/b.nc") run.2 = true.
Proof.
  cbv zeta.
  assert (Hin : "indian/2020/b.nc" ∈ query_index two_files "indian" 2020).
  { apply query_index_elem. exists (IndexRow "data/indian/2020/b.nc" "indian" 2020).
    repeat split. right. left. }
  split; [exact Hin|].
  refine (files_not_failed_exist 1 two_files "indian" 2020 b_served "indian/2020/b.nc" Hin _).
  assert (E : failed_downloads (fetch_data_budget 1 two_files "indian" 2020 b_served).1 = [])
    by (vm_compute; reflexivity).
  rewrite E. apply not_elem_of_nil.
Defined.

(** ** Retrying until it works *)

Lemma nc_attempts_until_success (n : nat) (url lp : string)
    (fails : list (request -> reply)) (f_ok : request -> reply)
    (rest : list (request -> reply)) (cl : option Z) (chunks : list (list byte))
    (w : world) :
  net w !! url = Some (fails ++ f_ok :: rest) ->
  Forall (fun f => transient_reply (f (Request GET url None))) fails ->
  f_ok (Request GET url None) = Answer 200 cl chunks true ->
  (length fails < n)%nat ->
  (nc_attempts n url lp w).1 = true /\
  fs (nc_attempts n url lp w).2 !! lp = Some (concat chunks) /\
  net (nc_attempts n url lp w).2 !! url = Some rest /\
  requests (log (nc_attempts n url lp w).2)
  = requests (log w) ++ replicate (S (length fails)) (Request GET url None).
Proof.
  intros Hnet Hfails Hok. revert n w Hnet.
  induction Hfails as [|f fails Hf _ IH]; intros n w Hnet Hn.
  - destruct n as [|n]; [cbn in Hn; lia|]. cbn [nc_attempts].
    rewrite (send_scripted (Request GET url None) w _ _ Hnet), Hok.
    cbn [Z.eqb Pos.eqb fst snd write_file fs net log rq_url].
    rewrite !lookup_insert_eq, requests_opened, requests_sent. now cbn.
  - destruct n as [|n]; [cbn in Hn; lia|]. cbn [nc_attempts].
    rewrite (send_scripted (Request GET url None) w _ _ Hnet).
    cbn [rq_url].
    set (w1 := World (fs w) (<[url := fails ++ f_ok :: rest]> (net w))
                     (log w ++ [Requested (Request GET url None)])).
    assert (Hstep : forall w2, net w2 = net w1 -> requests (log w2) = requests (log w1) ->
              (nc_attempts n url lp w2).1 = true /\
              fs (nc_attempts n url lp w2).2 !! lp = Some (concat chunks) /\
              net (nc_attempts n url lp w2).2 !! url = Some rest /\
              requests (log (nc_attempts n url lp w2).2)
              = requests (log w) ++ replicate (S (length (f :: fails))) (Request GET url None)).
    { intros w2 Hn2 Hl2.
      destruct (IH n w2) as (H1 & H2 & H3 & H4).
      - rewrite Hn2. cbn [w1 net]. apply lookup_insert_eq.
      - cbn in Hn. lia.
      - repeat split; [exact H1 | exact H2 | exact H3|].
        rewrite H4, Hl2. cbn [w1 log]. rewrite requests_sent, <- app_assoc. reflexivity. }
    destruct (f (Request GET url None)) as [status c ch intact|]; cbn in Hf.
    + destruct Hf as [[-> ->]|[H200 H404]].
      * cbn [Z.eqb Pos.eqb]. apply Hstep; [reflexivity|].
        cbn [sleep record write_file log]. now rewrite requests_slept, requests_opened.
      * replace (status =? 200) with false by (symmetry; now apply Z.eqb_neq).
        replace (status =? 404) with false by (symmetry; now apply Z.eqb_neq).
        now apply Hstep.
    + apply Hstep; [reflexivity|]. cbn [sleep record log]. now rewrite requests_slept.
Qed.

(** X17. [download_nc_file] retries until it works: when the remote fails
    fewer times than the budget allows (no response, a broken stream, or a
    status other than 200 and 404) and then sends the file, the function
    returns [True], the destination holds exactly the body of that last
    response, and one request was sent per failure plus one. *)
Theorem download_nc_file_retries_until_success
    (url local_path : string) (retries : Z)
    (fails : list (request -> reply)) (f_ok : request -> reply)
    (rest : list (request -> reply)) (cl : option Z) (chunks : list (list byte))
    (w : world) :
  net w !! url = Some (fails ++ f_ok :: rest) ->
  Forall (fun f => transient_reply (f (Request GET url None))) fails ->
  f_ok (Request GET url None) = Answer 200 cl chunks true ->
  Z.of_nat (length fails) < retries ->
  let run := download_nc_file url local_path retries w in
  run.1 = true /\
  fs run.2 !! local_path = Some (concat chunks) /\
  requests (log run.2)
  = requests (log w) ++ replicate (S (length fails)) (Request GET url None).
Proof.
  intros Hnet Hfails Hok Hr. cbv zeta. unfold download_nc_file.
  destruct (nc_attempts_until_success (Z.to_nat retries) url local_path fails f_ok rest
              cl chunks w Hnet Hfails Hok ltac:(lia)) as (H1 & H2 & _ & H4).
  now repeat split.
Qed.

Lemma download_nc_file_retries_until_success_witness :
  fs (download_nc_file b_url b_path 3 b_third_time).2 !! b_path = Some (concat [[x02; x03]]).
Proof.
  refine (proj1 (proj2 (download_nc_file_retries_until_success b_url b_path 3
            [timeout; status_reply 503] (ok_reply [x02; x03]) [] None [[x02; x03]]
            b_third_time _ _ _ _))).
  - reflexivity.
  - constructor; [exact I|]. constructor; [|constructor]. right. split; discriminate.
  - reflexivity.
  - reflexivity.
Defined.

Section IndexRetry.

Import IndexDownload.

Variables (url save_path : string).

Lemma path_exists_absent (p : string) (v : world) :
  fs v !! p = None -> path_exists p v = false.
Proof. intros H. unfold path_exists. now rewrite H. Qed.

(** A failing attempt on an absent destination, followed by the handler. *)
Lemma attempt_fails_clean (f : request -> reply) (script : list (request -> reply))
    (w : world) :
  fs w !! save_path = None ->
  net w !! url = Some (f :: script) ->
  index_transient_reply (f (Request GET url None)) ->
  exists w1,
    attempt url save_path w = (false, w1) /\
    fs (if path_exists save_path w1 then remove save_path w1 else w1) !! save_path = None /\
    net (if path_exists save_path w1 then remove save_path w1 else w1) !! url = Some script /\
    requests (log (if path_exists save_path w1 then remove save_path w1 else w1))
    = requests (log w) ++ [Request GET url None].
Proof.
  intros Hnone Hnet Hf. unfold attempt.
  rewrite (path_exists_absent _ _ Hnone). cbn [Z.ltb Z.compare].
  rewrite (send_scripted (Request GET url None) w _ _ Hnet). cbn [rq_url].
  set (w1 := World (fs w) (<[url := script]> (net w))
                   (log w ++ [Requested (Request GET url None)])).
  assert (Hplain : fs w1 !! save_path = None /\ net w1 !! url = Some script /\
                   requests (log w1) = requests (log w) ++ [Request GET url None]).
  { cbn [w1 fs net log]. rewrite lookup_insert_eq, requests_sent. now repeat split. }
  assert (Habsent : path_exists save_path w1 = false)
    by (apply path_exists_absent, Hplain).
  assert (Hclean : forall ch,
            fs (remove save_path (write_file save_path false ch w1)) !! save_path = None /\
            net (remove save_path (write_file save_path false ch w1)) !! url = Some script /\
            requests (log (remove save_path (write_file save_path false ch w1)))
            = requests (log w) ++ [Request GET url None]).
  { intros ch. unfold remove, write_file. cbn [w1 fs net log].
    rewrite lookup_delete_eq, lookup_insert_eq, requests_removed, requests_opened,
      requests_sent. now repeat split. }
  destruct (f (Request GET url None)) as [status c ch intact|]; cbn in Hf.
  - destruct Hf as [[Hs ->]|(H200 & H206 & H416)].
    + replace (status =? 416) with false by (symmetry; apply Z.eqb_neq; lia).
      replace ((status =? 200) || (status =? 206)) with true
        by (symmetry; apply orb_true_iff; destruct Hs as [->| ->]; [now left | now right]).
      eexists. split; [reflexivity|].
      rewrite path_exists_written. apply Hclean.
    + replace (status =? 416) with false by (symmetry; now apply Z.eqb_neq).
      replace (status =? 200) with false by (symmetry; now apply Z.eqb_neq).
      replace (status =? 206) with false by (symmetry; now apply Z.eqb_neq).
      cbn [orb]. rewrite Habsent.
      exists w1. split; [now destruct (raises_for_status status)|].
      rewrite Habsent. exact Hplain.
  - exists w1. split; [reflexivity|]. rewrite Habsent. exact Hplain.
Qed.

Lemma attempts_until_success (n : nat)
    (fails : list (request -> reply)) (f_ok : request -> reply)
    (rest : list (request -> reply)) (status : Z) (cl : option Z)
    (chunks : list (list byte)) (w : world) :
  fs w !! save_path = None ->
  net w !! url = Some (fails ++ f_ok :: rest) ->
  Forall (fun f => index_transient_reply (f (Request GET url None))) fails ->
  f_ok (Request GET url None) = Answer status cl chunks true ->
  status = 200 \/ status = 206 ->
  (length fails < n)%nat ->
  (attempts n url save_path w).1 = Downloaded /\
  fs (attempts n url save_path w).2 !! save_path = Some (concat chunks) /\
  requests (log (attempts n url save_path w).2)
  = requests (log w) ++ replicate (S (length fails)) (Request GET url None).
Proof.
  intros Hnone Hnet Hfails Hok Hs. revert n w Hnone Hnet.
  induction Hfails as [|f fails Hf _ IH]; intros n w Hnone Hnet Hn.
  - destruct n as [|n]; [cbn in Hn; lia|]. cbn [attempts].
    unfold attempt. rewrite (path_exists_absent _ _ Hnone). cbn [Z.ltb Z.compare].
    rewrite (send_scripted (Request GET url None) w _ _ Hnet), Hok.
    replace (status =? 416) with false by (symmetry; apply Z.eqb_neq; lia).
    replace ((status =? 200) || (status =? 206)) with true
      by (symmetry; apply orb_true_iff; destruct Hs as [->| ->]; [now left | now right]).
    cbn [fst snd write_file fs net log rq_url].
    rewrite lookup_insert_eq, requests_opened, requests_sent. now cbn.
  - destruct n as [|n]; [cbn in Hn; lia|]. cbn [attempts].
    destruct (attempt_fails_clean f (fails ++ f_ok :: rest) w Hnone Hnet Hf)
      as (w1 & -> & H1 & H2 & H3).
    set (w2 := if path_exists save_path w1 then remove save_path w1 else w1) in *.
    destruct (IH n (sleep 5 w2)) as (R1 & R2 & R3);
      [exact H1 | exact H2 | cbn in Hn; lia |].
    repeat split; [exact R1 | exact R2|].
    rewrite R3. cbn [sleep record log]. rewrite requests_slept, H3, <- app_assoc.
    reflexivity.
Qed.

End IndexRetry.

(** X18. The index downloader retries until it works: with the destination
    absent, when fewer than three attempts fail (no response, a broken
    stream, or a status other than 200, 206 and 416) and the remote then sends
    the file, [download_file] reports a download, the destination holds
    exactly the body of that last response, and one plain GET was sent per
    failure plus one. *)
Theorem index_download_retries_until_success
    (url save_path : string)
    (fails : list (request -> reply)) (f_ok : request -> reply)
    (rest : list (request -> reply)) (status : Z) (cl : option Z)
    (chunks : list (list byte)) (w : world) :
  fs w !! save_path = None ->
  net w !! url = Some (fails ++ f_ok :: rest) ->
  Forall (fun f => index_transient_reply (f (Request GET url None))) fails ->
  f_ok (Request GET url None) = Answer status cl chunks true ->
  status = 200 \/ status = 206 ->
  (length fails < 3)%nat ->
  let run := IndexDownload.download_file url save_path w in
  run.1 = IndexDownload.Downloaded /\
  fs run.2 !! save_path = Some (concat chunks) /\
  requests (log run.2)
  = requests (log w) ++ replicate (S (length fails)) (Request GET url None).
Proof.
  intros Hnone Hnet Hfails Hok Hs Hlen. cbv zeta.
  unfold IndexDownload.download_file, IndexDownload.is_file_complete, path_exists.
  rewrite Hnone. cbn [negb].
  change (Z.to_nat IndexDownload.MAX_RETRIES) with 3%nat.
  now apply (attempts_until_success url save_path 3 fails f_ok rest status cl chunks w).
Qed.

Lemma index_download_retries_until_success_witness :
  fs (IndexDownload.download_file b_url b_path b_third_time).2 !! b_path
  = Some (concat [[x02; x03]]).
Proof.
  refine (proj1 (proj2 (index_download_retries_until_success b_url b_path
            [timeout; status_reply 503] (ok_reply [x02; x03]) [] 200 None [[x02; x03]]
            b_third_time _ _ _ _ _ _))).
  - reflexivity.
  - reflexivity.
  - constructor; [exact I|]. constructor; [|constructor].
    right. repeat split; discriminate.
  - reflexivity.
  - now left.
  - cbn. lia.
Defined.

(** ** The parquet files of the batches *)

Section BatchFiles.

Import DataLoading.

Lemma append_cancel_r (a b s : string) : a +:+ s = b +:+ s -> a = b.
Proof.
  revert b. induction a as [|c a IH]; intros [|d b] H.
  - reflexivity.
  - exfalso. apply (f_equal String.length) in H.
    rewrite append_empty, append_cons in H. cbn [String.length] in H.
    rewrite length_append in H. lia.
  - exfalso. apply (f_equal String.length) in H.
    rewrite append_empty, append_cons in H. cbn [String.length] in H.
    rewrite length_append in H. lia.
  - rewrite !append_cons in H. injection H as -> H. f_equal. now apply IH.
Qed.

Lemma startswith_slash (r x y : string) :
  startswith (r +:+ "_" +:+ x) "/" = startswith (r +:+ "_" +:+ y) "/".
Proof. destruct r as [|c r]; reflexivity. Qed.

Lemma join2_cancel (p r x y : string) :
  join2 p (r +:+ "_" +:+ x) = join2 p (r +:+ "_" +:+ y) -> x = y.
Proof.
  unfold join2. rewrite (startswith_slash r x y).
  destruct (startswith (r +:+ "_" +:+ y) "/").
  - intros H. now do 2 apply String.app_inj in H.
  - destruct (String.eqb p "" || endswith p "/"); intros H.
    + now do 3 apply String.app_inj in H.
    + now do 4 apply String.app_inj in H.
Qed.

Lemma batch_file_inj (region : string) (year : Z) (n1 n2 : nat) :
  batch_file region year n1 = batch_file region year n2 -> n1 = n2.
Proof.
  unfold batch_file, path_join. cbn [fold_left]. intros H.
  apply join2_cancel in H. do 2 apply String.app_inj in H.
  apply append_cancel_r in H. now apply pretty_nat_inj in H.
Qed.

Section Written.

Context {DF : Type}.
Variable process_file : string -> string -> option DF.

Lemma convert_batches_names (region : string) (year : Z) (n : nat)
    (todo : list (list string)) :
  Forall (fun name => exists k, (n <= k)%nat /\ name = batch_file region year k)
         (convert_batches process_file region year n todo).1.*1 /\
  NoDup (convert_batches process_file region year n todo).1.*1.
Proof.
  revert n. induction todo as [|b todo IH]; intros n.
  - cbn. split; constructor.
  - cbn [convert_batches]. destruct (IH (S n)) as [Hf Hd].
    destruct (convert_batches process_file region year (S n) todo) as [written k].
    cbn [fst] in *.
    assert (Hf' : Forall (fun name => exists k, (n <= k)%nat /\ name = batch_file region year k)
                    written.*1).
    { eapply Forall_impl; [exact Hf|]. intros name (j & Hj & ->). exists j. split; [lia|reflexivity]. }
    destruct (omap (fun f => process_file f region) b) as [|d ds]; cbn [fst]; [now split|].
    cbn [fmap list_fmap fst]. split.
    + constructor; [|exact Hf']. exists n. split; [lia | reflexivity].
    + constructor; [|exact Hd]. intros Hin.
      rewrite Forall_forall in Hf. destruct (Hf _ Hin) as (j & Hj & E).
      apply batch_file_inj in E. lia.
Qed.

End Written.

End BatchFiles.

(** X19. The parquet files one conversion writes have pairwise different
    names: no batch overwrites the file of another batch. *)
Theorem batch_files_are_distinct {DF : Type} (process_file : string -> string -> option DF)
    (region : string) (year : Z) (files : list string) :
  NoDup (DataLoading.convert_data process_file region year files).2.*1.
Proof.
  unfold DataLoading.convert_data. destruct files as [|f0 files]; [constructor|].
  pose proof (convert_batches_names process_file region year O
                (DataLoading.batches (f0 :: files))) as [_ H].
  now destruct (DataLoading.convert_batches process_file region year 0
                  (DataLoading.batches (f0 :: files))) as [written k].
Qed.
